(** * The LVC GWTC-1 posterior parser and event summariser

    A shallow embedding of [catalog_generators/lvc_gwtc1_parser.py].

    - A pandas [DataFrame] is an ordered association list from column names
      to columns; a column (a pandas Series) is the list of its per-draw
      values.
    - DataFrames are mutable objects that the parser updates in place, so
      they live in a store ([heap]) and the functions that receive a
      DataFrame receive its location.  The functions that only read a table
      ([summarise_event_df]) take the table itself.
    - A Python [dict] with string keys is a [gmap string _].
    - A Python exception is the [Err] branch of [result]; [KeyError k] is the
      error raised by [df[k]] and [d[k]] when [k] is absent.
    - The arithmetic of the cells is an interface (class [Float64]) and the
      theorems about the code hold for every instance of it.  The cells of
      the program are IEEE 754 binary64 numbers, the instance
      [Binary64_Float64] over the primitive floats. *)

From Stdlib Require Import Floats.PrimFloat.
From Stdlib Require Import QArith Ascii.
From stdpp Require Import gmap strings list fin_maps pretty.

(** ** Cell values *)

Class Float64 (F : Type) : Type := {
  of_int : Z → F;          (* an int literal used where a float is expected *)
  fadd : F → F → F;        (* [x + y] *)
  fdiv : F → F → F         (* [x / y] *)
}.

(** float64: the binary64 numbers, with the sum and the quotient rounded to
    the nearest and their infinities and NaN. *)
Fixpoint float_of_pos (p : positive) : float :=
  match p with
  | xH => 1%float
  | xO p => PrimFloat.mul 2 (float_of_pos p)
  | xI p => PrimFloat.add (PrimFloat.mul 2 (float_of_pos p)) 1
  end.

(** An int where a float is expected; exact up to 2^53 (the code has the
    literals 0 and 1). *)
Definition float_of_int (n : Z) : float :=
  match n with
  | Z0 => 0%float
  | Zpos p => float_of_pos p
  | Zneg p => PrimFloat.opp (float_of_pos p)
  end.

#[export] Instance Binary64_Float64 : Float64 float :=
  {| of_int := float_of_int; fadd := PrimFloat.add; fdiv := PrimFloat.div |}.

(** Exact rational arithmetic.  It is not float64: it has no rounding, no
    underflow, no infinity and no NaN.  It is there to run the functions on
    small tables of rationals; nothing is stated of the values that float64
    computes on the ground of this instance. *)
#[export] Instance Q_Float64 : Float64 Q :=
  {| of_int := inject_Z; fadd := Qplus; fdiv := Qdiv |}.

(** ** Sample tables *)

Definition DataFrame (F : Type) : Type := list (string * list F).

Section Table.
Context {F : Type}.

(** [df[c]] *)
Fixpoint df_get (c : string) (df : DataFrame F) : option (list F) :=
  match df with
  | [] => None
  | (k, s) :: rest => if String.eqb k c then Some s else df_get c rest
  end.

(** [df[c] = s]: an existing column keeps its position, a new one is
    appended. *)
Fixpoint df_set (c : string) (s : list F) (df : DataFrame F) : DataFrame F :=
  match df with
  | [] => [(c, s)]
  | (k, v) :: rest =>
      if String.eqb k c then (k, s) :: rest else (k, v) :: df_set c s rest
  end.

(** [df.columns] *)
Definition columns (df : DataFrame F) : list string := df.*1.

(** [len(df.index)]: every column of a DataFrame has that length. *)
Definition nrows (df : DataFrame F) : nat :=
  match df with
  | [] => 0
  | (_, s) :: _ => length s
  end.

Definition has_column (c : string) (df : DataFrame F) : Prop :=
  is_Some (df_get c df).

(** [sub] only adds columns to [df]: every column of [df] is in [sub],
    with the same values. *)
Definition extends (df sub : DataFrame F) : Prop :=
  ∀ c s, df_get c df = Some s → df_get c sub = Some s.
End Table.

(** ** The object store and the monad of the code that mutates it *)

Definition loc : Type := nat.

Inductive error : Type :=
  | KeyError (key : string)
  (* not a Python error: a name always denotes a live object *)
  | DanglingReference (l : loc).

Inductive result (A : Type) : Type :=
  | Ok (a : A)
  | Err (e : error).
Arguments Ok {A} a.
Arguments Err {A} e.

#[export] Instance result_ret : MRet result := λ A a, Ok a.
#[export] Instance result_bind : MBind result := λ A B f m,
  match m with
  | Ok a => f a
  | Err e => Err e
  end.

(** The store: the objects allocated so far, an object's location is its
    index. *)
Abbreviation heap F := (list (DataFrame F)).

Section Store.
Context {F : Type} `{Float64 F}.

(** A computation returns a value or raises, and leaves a store behind in
    both cases: what was assigned before an exception stays assigned. *)
Definition M (A : Type) : Type := heap F → result A * heap F.

#[export] Instance M_ret : MRet M := λ A a h, (Ok a, h).
#[export] Instance M_bind : MBind M := λ A B f m h,
  match m h with
  | (Ok a, h') => f a h'
  | (Err e, h') => (Err e, h')
  end.

Fixpoint for_each {A} (xs : list A) (body : A → M unit) : M unit :=
  match xs with
  | [] => mret tt
  | x :: rest => body x ;; for_each rest body
  end.

(** [samples[c]] *)
Definition getitem (samples : loc) (c : string) : M (list F) := λ h,
  match h !! samples with
  | None => (Err (DanglingReference samples), h)
  | Some df =>
      match df_get c df with
      | Some s => (Ok s, h)
      | None => (Err (KeyError c), h)
      end
  end.

(** [samples[c] = s], in place *)
Definition setitem (samples : loc) (c : string) (s : list F) : M unit := λ h,
  match h !! samples with
  | None => (Err (DanglingReference samples), h)
  | Some df => (Ok tt, <[samples := df_set c s df]> h)
  end.

(** [samples[c] = n] for a scalar [n]: broadcast over the rows *)
Definition setitem_scalar (samples : loc) (c : string) (n : Z) : M unit := λ h,
  match h !! samples with
  | None => (Err (DanglingReference samples), h)
  | Some df => (Ok tt, <[samples := df_set c (replicate (nrows df) (of_int n)) df]> h)
  end.

(** [df.copy()]: a new object with the same columns *)
Definition copy (df : loc) : M loc := λ h,
  match h !! df with
  | None => (Err (DanglingReference df), h)
  | Some t => (Ok (length h), h ++ [t])
  end.

(** [a / b] on columns of one table, row by row *)
Definition series_div (a b : list F) : list F := zip_with fdiv a b.

(** [n + a] for an int [n] and a column [a] *)
Definition series_radd (n : Z) (a : list F) : list F := fadd (of_int n) <$> a.
End Store.

Arguments M F A : clear implicits.

(** f-string formatting of an int *)
Definition fmt_int (i : Z) : string := pretty i.

(** ** The source columns *)

(** The keys of [SEARCH_PARAMS], in order. *)
Definition SEARCH_PARAMS : list string :=
  [ "luminosity_distance_Mpc"; "m1_detector_frame_Msun"; "m2_detector_frame_Msun";
    "right_ascension"; "declination"; "costheta_jn";
    "spin1"; "costilt1"; "spin2"; "costilt2" ].

(** ** The parser *)

Section Parser.
Context {F : Type} `{Float64 F}.

(** [utils.get_redshift_from_dl], on a column *)
Variable get_redshift_from_dl : list F → list F.
(** [utils.add_aligned_component_spins] *)
Variable add_aligned_component_spins : loc → M F loc.
(** What the decorator [utils.sort_parameters] does to the table that the
    decorated function returns. *)
Variable sort_columns : loc → M F loc.

(** Modelled from the spec: the decorator [utils.sort_parameters] is not
    part of the source file.  The spec (4.1, step 10) has it reorder and
    validate the columns of the table before it is returned: the decorated
    function runs first, then its result is post-processed. *)
Definition sort_parameters (func : loc → M F loc) : loc → M F loc :=
  λ samples, out ← func samples; sort_columns out.

(** The body of the loop [for ii in [1, 2]] of [standardise_samples]. *)
Definition standardise_component (samples : loc) (ii : Z) : M F unit :=
  m ← getitem samples ("m" +:+ fmt_int ii +:+ "_detector_frame_Msun");
  z ← getitem samples "redshift";
  setitem samples ("mass_" +:+ fmt_int ii +:+ "_source")
          (series_div m (series_radd 1 z));;
  a ← getitem samples ("spin" +:+ fmt_int ii);
  setitem samples ("a_" +:+ fmt_int ii) a;;
  t ← getitem samples ("costilt" +:+ fmt_int ii);
  setitem samples ("cos_tilt_" +:+ fmt_int ii) t;;
  t ← getitem samples ("costilt" +:+ fmt_int ii);
  setitem samples ("spin_" +:+ fmt_int ii +:+ "z") t.

(** The assignments of [standardise_samples] that precede the call of
    [add_aligned_component_spins]. *)
Definition standardise_columns (samples : loc) : M F unit :=
  d ← getitem samples "luminosity_distance_Mpc";
  setitem samples "luminosity_distance" d;;
  d ← getitem samples "luminosity_distance";
  setitem samples "redshift" (get_redshift_from_dl d);;
  for_each [1; 2]%Z (standardise_component samples);;
  m2 ← getitem samples "mass_2_source";
  m1 ← getitem samples "mass_1_source";
  setitem samples "mass_ratio" (series_div m2 m1);;
  ra ← getitem samples "right_ascension";
  setitem samples "ra" ra;;
  dec ← getitem samples "declination";
  setitem samples "dec" dec.

(** [LvcGwtc1EventParser.standardise_samples], without its decorator. *)
Definition standardise_samples_undecorated (samples : loc) : M F loc :=
  standardise_columns samples;;
  samples ← add_aligned_component_spins samples;
  setitem_scalar samples "incl" 0;;
  setitem_scalar samples "phi_12" 0;;
  setitem_scalar samples "phi_jl" 0;;
  setitem_scalar samples "geocent_time" 0;;
  mret samples.

(** [LvcGwtc1EventParser.standardise_samples] *)
Definition standardise_samples : loc → M F loc :=
  sort_parameters standardise_samples_undecorated.

(** The statements of [standardise_samples] that follow its column
    assignments: the call of [add_aligned_component_spins], which rebinds
    [samples], the four scalar assignments and the [return]. *)
Definition standardise_rest (samples : loc) : M F loc :=
  samples ← add_aligned_component_spins samples;
  setitem_scalar samples "incl" 0;;
  setitem_scalar samples "phi_12" 0;;
  setitem_scalar samples "phi_jl" 0;;
  setitem_scalar samples "geocent_time" 0;;
  mret samples.

(** [convert_df_to_gwosc_df] *)
Definition convert_df_to_gwosc_df (df : loc) : M F loc :=
  converted_df ← copy df;
  m ← getitem converted_df "m1_detector_frame_Msun";
  setitem converted_df "mass_1" m;;
  m ← getitem converted_df "m2_detector_frame_Msun";
  setitem converted_df "mass_2" m;;
  m2 ← getitem converted_df "mass_2";
  m1 ← getitem converted_df "mass_1";
  setitem converted_df "mass_ratio" (series_div m2 m1);;
  ra ← getitem converted_df "right_ascension";
  setitem converted_df "ra" ra;;
  dec ← getitem converted_df "declination";
  setitem converted_df "dec" dec;;
  mret converted_df.

(** [df] after the assignments [df[c] = s] for the [(c, s)] of [new], in
    order. *)
Definition df_update (new : list (string * list F)) (df : DataFrame F) : DataFrame F :=
  foldl (λ d '(c, s), df_set c s d) df new.

(** What [standardise_columns] assigns, in order, on a table whose source
    columns are [dl], [m1], [a1], [t1], [m2], [a2], [t2], [ra], [dec] (in
    [READ_ORDER]). *)
Definition assigned_columns (dl m1 a1 t1 m2 a2 t2 ra dec : list F)
    : list (string * list F) :=
  let z := get_redshift_from_dl dl in
  let m1s := series_div m1 (series_radd 1 z) in
  let m2s := series_div m2 (series_radd 1 z) in
  [ ("luminosity_distance", dl); ("redshift", z);
    ("mass_1_source", m1s); ("a_1", a1); ("cos_tilt_1", t1); ("spin_1z", t1);
    ("mass_2_source", m2s); ("a_2", a2); ("cos_tilt_2", t2); ("spin_2z", t2);
    ("mass_ratio", series_div m2s m1s); ("ra", ra); ("dec", dec) ].

(** What [convert_df_to_gwosc_df] assigns to the copy. *)
Definition converted_columns (m1 m2 ra dec : list F) : list (string * list F) :=
  [ ("mass_1", m1); ("mass_2", m2); ("mass_ratio", series_div m2 m1);
    ("ra", ra); ("dec", dec) ].
End Parser.

(** The columns that [standardise_samples] sets to the scalar 0. *)
Definition DEFAULTED : list string := ["incl"; "phi_12"; "phi_jl"; "geocent_time"].

(** [df] after the four scalar assignments that end [standardise_samples]. *)
Definition with_defaults {F} `{Float64 F} (df : DataFrame F) : DataFrame F :=
  foldl (λ d c, df_set c (replicate (nrows d) (of_int 0)) d) df DEFAULTED.

(** Modelled from the spec: [utils.add_aligned_component_spins] and what
    [utils.sort_parameters] does to the table are not part of the source
    file.  The spec (4.1, steps 8 and 10) has them compute further columns
    from the ones present and reorder the columns: they never fail, and drop
    or change no column. *)
Definition keeps_columns {F} (g : loc → M F loc) : Prop :=
  ∀ l h df, h !! l = Some df →
    ∃ l' h' df', g l h = (Ok l', h') ∧ h' !! l' = Some df' ∧ extends df df'.

(** [g] does not add the column [c]: a table that it returns has a column
    [c] only when the table it was given has one.  Nothing under [src/] tells
    which columns the two helpers of [utils] add; this is a hypothesis of the
    statements that name it, and no more. *)
Definition adds_no_column {F} (c : string) (g : loc → M F loc) : Prop :=
  ∀ l h df l' h' df',
    h !! l = Some df → g l h = (Ok l', h') → h' !! l' = Some df' →
    ¬ has_column c df → ¬ has_column c df'.

(** The source columns that [standardise_samples] reads, in the order in
    which it first reads them. *)
Definition READ_ORDER : list string :=
  [ "luminosity_distance_Mpc";
    "m1_detector_frame_Msun"; "spin1"; "costilt1";
    "m2_detector_frame_Msun"; "spin2"; "costilt2";
    "right_ascension"; "declination" ].

Definition first_missing {F} (df : DataFrame F) : option string :=
  List.find (λ c, bool_decide (df_get c df = None)) READ_ORDER.

(** The Canonical Parameter Set of the spec (section 3). *)
Definition CANONICAL : list string :=
  [ "mass_1"; "mass_2"; "mass_1_source"; "mass_2_source"; "mass_ratio";
    "luminosity_distance"; "redshift"; "ra"; "dec"; "a_1"; "a_2";
    "cos_tilt_1"; "cos_tilt_2"; "spin_1z"; "spin_2z";
    "incl"; "phi_12"; "phi_jl"; "geocent_time" ].

(** The canonical columns that [standardise_samples] assigns. *)
Definition ASSIGNED : list string :=
  [ "mass_1_source"; "mass_2_source"; "mass_ratio";
    "luminosity_distance"; "redshift"; "ra"; "dec"; "a_1"; "a_2";
    "cos_tilt_1"; "cos_tilt_2"; "spin_1z"; "spin_2z";
    "incl"; "phi_12"; "phi_jl"; "geocent_time" ].

(** ** The event summariser *)

(** The values of a summary record: a float, the int [version], the
    [commonName], or [None]. *)
Inductive pyval (F : Type) : Type :=
  | PyFloat (x : F)
  | PyInt (n : Z)
  | PyStr (s : string)
  | PyNone.
Arguments PyFloat {F} x.
Arguments PyInt {F} n.
Arguments PyStr {F} s.
Arguments PyNone {F}.

(** [d[k]] *)
Definition dict_getitem {V} (d : gmap string V) (k : string) : result V :=
  match d !! k with
  | Some v => Ok v
  | None => Err (KeyError k)
  end.

(** A [for] loop that updates one variable and may raise. *)
Fixpoint for_fold {A B} (body : B → A → result B) (b : B) (xs : list A) : result B :=
  match xs with
  | [] => Ok b
  | x :: rest => b' ← body b x; for_fold body b' rest
  end.

(** The three statistics positions, in the order of the second loop of
    [summarise_event_df], and the mass keys of its inner loop. *)
Definition POSITIONS : list string := ["_lower"; "_upper"; ""].
Definition MASS_KEYS : list string := ["mass_1"; "mass_2"; "chirp_mass"; "total_mass"].

(** The keys that the second loop reads from the summary of the columns, in
    the order of the reads. *)
Definition SECONDARY_INPUTS : list string :=
  [ "luminosity_distance_lower";
    "mass_1_lower"; "mass_2_lower"; "chirp_mass_lower"; "total_mass_lower";
    "luminosity_distance_upper";
    "mass_1_upper"; "mass_2_upper"; "chirp_mass_upper"; "total_mass_upper";
    "luminosity_distance";
    "mass_1"; "mass_2"; "chirp_mass"; "total_mass" ].

Section Summariser.
Context {F : Type} `{Float64 F}.

(** [utils.summarise_samples]: three numbers for one column *)
Variable summarise_samples : list F → F * F * F.
(** [bilby.gw.conversion.luminosity_distance_to_redshift] *)
Variable luminosity_distance_to_redshift : F → F.
(** [event_keys.GWOSC_KEYS] *)
Variable GWOSC_KEYS : list string.

(** The three keys that the first loop assigns for the column [param]. *)
Definition keys_of (param : string) : list string :=
  [param +:+ "_lower"; param +:+ "_upper"; param].

(** The tuple assignment in the first loop of [summarise_event_df]; its
    three targets are assigned from left to right. *)
Definition store_summary (summary : gmap string F) (param : string)
    (col : list F) : gmap string F :=
  let '(x, y, z) := summarise_samples col in
  <[param := z]>
    (<[param +:+ "_upper" := y]>
       (<[param +:+ "_lower" := x]> summary)).

(** The first loop of [summarise_event_df].  [param] ranges over the
    columns of [event_df], so [event_df[param]] is always there. *)
Definition summarise_columns (event_df : DataFrame F) : gmap string F :=
  foldl (λ summary param,
           match df_get param event_df with
           | Some col => store_summary summary param col
           | None => summary
           end)
        ∅ (columns event_df).

(** The body of [for key in ['mass_1', 'mass_2', 'chirp_mass', 'total_mass']] *)
Definition source_frame (param_type : string) (summary : gmap string F)
    (key : string) : result (gmap string F) :=
  m ← dict_getitem summary (key +:+ param_type);
  z ← dict_getitem summary ("redshift" +:+ param_type);
  mret (<[key +:+ "_source" +:+ param_type := fdiv m (fadd (of_int 1) z)]> summary).

(** The body of [for param_type in ["_lower", "_upper", ""]] *)
Definition derive_position (summary : gmap string F) (param_type : string)
    : result (gmap string F) :=
  d ← dict_getitem summary ("luminosity_distance" +:+ param_type);
  for_fold (source_frame param_type)
           (<["redshift" +:+ param_type := luminosity_distance_to_redshift d]> summary)
           MASS_KEYS.

(** The second loop of [summarise_event_df]. *)
Definition derive_secondary (summary : gmap string F) : result (gmap string F) :=
  for_fold derive_position summary POSITIONS.

(** What the second loop leaves when it does not raise: at each position,
    the redshift and the source-frame masses computed from the entries of
    the summary that it was given. *)
Definition derived_from (summary computed : gmap string F) : Prop :=
  ∀ pt, pt ∈ POSITIONS →
    ∃ d, summary !! ("luminosity_distance" +:+ pt) = Some d
         ∧ computed !! ("redshift" +:+ pt)
           = Some (luminosity_distance_to_redshift d)
         ∧ ∀ key, key ∈ MASS_KEYS →
             ∃ m, summary !! (key +:+ pt) = Some m
                  ∧ computed !! (key +:+ "_source" +:+ pt)
                    = Some (fdiv m (fadd (of_int 1) (luminosity_distance_to_redshift d))).

(** [summary.get(k, None)] *)
Definition dict_get (summary : gmap string F) (k : string) : pyval F :=
  match summary !! k with
  | Some v => PyFloat v
  | None => PyNone
  end.

(** The last lines of [summarise_event_df]: the dict comprehension over
    [GWOSC_KEYS], then the version. *)
Definition publish (summary : gmap string F) : gmap string (pyval F) :=
  <["version" := PyInt 1]>
    (foldl (λ d k, <[k := dict_get summary k]> d) ∅ GWOSC_KEYS).

(** [summarise_event_df] *)
Definition summarise_event_df (event_df : DataFrame F) : result (gmap string (pyval F)) :=
  summary ← derive_secondary (summarise_columns event_df);
  mret (publish summary).

(** The body of the loop of [summarise_all_events]. *)
Definition summarise_event (summary_dict : gmap string (gmap string (pyval F)))
    (item : string * DataFrame F) : result (gmap string (gmap string (pyval F))) :=
  let '(event_name, event_df) := item in
  event_summary_dict ← summarise_event_df event_df;
  mret (<[event_name := <["commonName" := PyStr event_name]> event_summary_dict]>
          summary_dict).

(** [summarise_all_events]; the dict of tables is the list of its items. *)
Definition summarise_all_events (events_samples_dict : list (string * DataFrame F))
    : result (gmap string (gmap string (pyval F))) :=
  for_fold summarise_event ∅ events_samples_dict.
End Summariser.

(** ** Event names *)

(** [s.split(sep)[0]] for a non-empty [sep]: what comes before the first
    occurrence of [sep], or all of [s]. *)
Fixpoint split_head (sep s : string) : string :=
  if String.prefix sep s then ""
  else match s with
       | "" => ""
       | String c rest => String c (split_head sep rest)
       end.

(** [os.path.basename] (POSIX): what follows the last slash. *)
Fixpoint basename_from (acc path : string) : string :=
  match path with
  | "" => acc
  | String c rest =>
      if Ascii.eqb c "/"%char then basename_from "" rest
      else basename_from (acc +:+ String c "") rest
  end.

Definition basename (path : string) : string := basename_from "" path.

(** The name under which [load_event_samples_to_dataframes] stores the table
    read from [file]. *)
Definition event_name_of_file (file : string) : string :=
  let event_name := split_head ".h" (basename file) in
  split_head "_" event_name.

(** The spec's wording: [p] is [s] cut at the first occurrence of [sep]. *)
Definition has_at (sep s : string) (n : nat) : Prop :=
  ∃ p r, s = p +:+ sep +:+ r ∧ String.length p = n.

Definition cut_at_first (sep s p : string) : Prop :=
  ((∃ r, s = p +:+ sep +:+ r) ∧ ∀ n, has_at sep s n → String.length p ≤ n)
  ∨ (p = s ∧ ∀ n, ¬ has_at sep s n).

(** Whether the character [c] occurs in [s]. *)
Fixpoint has_char (c : ascii) (s : string) : bool :=
  match s with
  | "" => false
  | String a rest => Ascii.eqb a c || has_char c rest
  end.

(** [b] is the last component of [path]. *)
Definition last_component (path b : string) : Prop :=
  (∀ n, ¬ has_at "/" b n)
  ∧ (path = b ∨ ∃ d, path = d +:+ "/" +:+ b).

(** ** Concrete tables and collaborators *)

(** A posterior table as [load_event_samples] builds it: the ten columns of
    [SEARCH_PARAMS], three draws. *)
Definition raw_table : DataFrame Q :=
  [ ("luminosity_distance_Mpc", [100; 200; 300]);
    ("m1_detector_frame_Msun", [30; 32; 34]);
    ("m2_detector_frame_Msun", [20; 21; 22]);
    ("right_ascension", [1 # 2; 1 # 2; 3 # 5]);
    ("declination", [-(1 # 4); -(1 # 5); -(1 # 4)]);
    ("costheta_jn", [9 # 10; 4 # 5; 7 # 10]);
    ("spin1", [1 # 2; 3 # 10; 2 # 5]);
    ("costilt1", [1 # 5; -(1 # 2); 1 # 10]);
    ("spin2", [1 # 10; 1 # 5; 3 # 10]);
    ("costilt2", [3 # 5; 1 # 2; -(1 # 5)]) ]%Q.

(** The same table without its [spin2] column. *)
Definition raw_table_no_spin2 : DataFrame Q :=
  filter (λ kv, kv.1 ≠ "spin2") raw_table.

(** A table with the five columns that the second loop of
    [summarise_event_df] reads, and one more. *)
Definition masses_table : DataFrame Q :=
  [ ("luminosity_distance", [100; 200; 300]);
    ("mass_1", [30; 32; 34]);
    ("mass_2", [20; 21; 22]);
    ("chirp_mass", [21; 22; 23]);
    ("total_mass", [50; 53; 56]);
    ("ra", [1 # 2; 1 # 2; 3 # 5]) ]%Q.

(** A linear distance-redshift law, [z = H0 d / c] with [H0 / c = 7/30000]
    per Mpc. *)
Definition hubble_redshift (d : Q) : Q := (d * (7 # 30000))%Q.



Fixpoint insert_sorted (x : Q) (l : list Q) : list Q :=
  match l with
  | [] => [x]
  | y :: rest => if Qle_bool x y then x :: l else y :: insert_sorted x rest
  end.

Definition sort_samples (l : list Q) : list Q := foldr insert_sorted [] l.

(** A quantile summariser that returns its three numbers in the order of the
    spec (4.3): (lower, median, upper), here the minimum, the middle draw
    and the maximum. *)
Definition lower_median_upper (col : list Q) : Q * Q * Q :=
  let s := sort_samples col in
  (default 0%Q (head s), default 0%Q (s !! (length s / 2)%nat), default 0%Q (last s)).

(** The same numbers in the order in which [summarise_event_df] unpacks
    them: (lower, upper, median). *)
Definition lower_upper_median (col : list Q) : Q * Q * Q :=
  let '(lo, med, up) := lower_median_upper col in (lo, up, med).

(** The value of a computation that returned, [default] if it raised. *)
Definition get_ok {A} (default : A) (r : result A) : A :=
  match r with
  | Ok a => a
  | Err _ => default
  end.

(** A published key set. *)
Definition demo_keys : list string :=
  [ "mass_1_source"; "mass_1_source_lower"; "mass_1_source_upper";
    "mass_2_source"; "chirp_mass_source"; "redshift"; "luminosity_distance";
    "chi_eff"; "far" ].

(** The record of [masses_table], and the catalogue of the run that has
    this one event. *)
Definition masses_record : gmap string (pyval Q) :=
  get_ok ∅ (summarise_event_df lower_upper_median hubble_redshift demo_keys masses_table).

Definition masses_catalog : gmap string (gmap string (pyval Q)) :=
  get_ok ∅ (summarise_all_events lower_upper_median hubble_redshift demo_keys
              [("GW150914", masses_table)]).

(** ** The rest of the file *)

(** The source columns that [convert_df_to_gwosc_df] reads, in order. *)
Definition CONVERT_READS : list string :=
  [ "m1_detector_frame_Msun"; "m2_detector_frame_Msun";
    "right_ascension"; "declination" ].

(** The columns that [summarise_event_df] needs: the distance and the mass
    keys of its second loop. *)
Definition SUMMARY_COLUMNS : list string :=
  [ "luminosity_distance"; "mass_1"; "mass_2"; "chirp_mass"; "total_mass" ].

(** The keys that the second loop of [summarise_event_df] assigns. *)
Definition DERIVED_KEYS : list string :=
  [ "redshift_lower"; "mass_1_source_lower"; "mass_2_source_lower";
    "chirp_mass_source_lower"; "total_mass_source_lower";
    "redshift_upper"; "mass_1_source_upper"; "mass_2_source_upper";
    "chirp_mass_source_upper"; "total_mass_source_upper";
    "redshift"; "mass_1_source"; "mass_2_source";
    "chirp_mass_source"; "total_mass_source" ].

(** ** The catalogue run *)

(** A Python dict with string keys whose order matters: its items, in
    insertion order.  [items_get k d] is [d[k]]; [items_set k v d] is
    [d[k] = v], which keeps the position of a key that is there. *)
Fixpoint items_get {V} (k : string) (d : list (string * V)) : option V :=
  match d with
  | [] => None
  | (k', v) :: rest => if String.eqb k' k then Some v else items_get k rest
  end.

Fixpoint items_set {V} (k : string) (v : V) (d : list (string * V)) : list (string * V) :=
  match d with
  | [] => [(k, v)]
  | (k', v') :: rest =>
      if String.eqb k' k then (k', v) :: rest else (k', v') :: items_set k v rest
  end.

Section Catalog.
Context {F : Type} `{Float64 F}.
Variable summarise_samples : list F → F * F * F.
Variable luminosity_distance_to_redshift : F → F.
Variable GWOSC_KEYS : list string.

(** The loop of [make_events_gwosc_compatible] over the keys that are left.
    The dict of the events is an object that the loop updates; its state is
    passed along with the store, and is there after an exception too. *)
Fixpoint compatible_loop (keys : list string)
    (events_df_container : list (string * loc)) (h : heap F)
    : result unit * list (string * loc) * heap F :=
  match keys with
  | [] => (Ok tt, events_df_container, h)
  | event_name :: rest =>
      match items_get event_name events_df_container with
      | None => (Err (KeyError event_name), events_df_container, h)
      | Some df =>
          match convert_df_to_gwosc_df df h with
          | (Ok converted, h') =>
              compatible_loop rest (items_set event_name converted events_df_container) h'
          | (Err e, h') => (Err e, events_df_container, h')
          end
      end
  end.

(** [make_events_gwosc_compatible]: the dict it returns is the one it was
    passed, in its final state. *)
Definition make_events_gwosc_compatible (events_df_container : list (string * loc))
    (h : heap F) : result unit * list (string * loc) * heap F :=
  compatible_loop events_df_container.*1 events_df_container h.

(** [events_samples_dict.items()], with the tables that the names denote. *)
Fixpoint event_tables (events_samples_dict : list (string * loc)) (h : heap F)
    : result (list (string * DataFrame F)) :=
  match events_samples_dict with
  | [] => Ok []
  | (event_name, l) :: rest =>
      match h !! l with
      | None => Err (DanglingReference l)
      | Some event_df =>
          tables ← event_tables rest h;
          mret ((event_name, event_df) :: tables)
      end
  end.

(** [generate_lvc_catalog] between the load and the write: from the dict of
    the tables read from the files to the dict that is written under
    [events]. *)
Definition generate_lvc_catalog (event_samples : list (string * loc)) (h : heap F)
    : result (gmap string (gmap string (pyval F))) :=
  match make_events_gwosc_compatible event_samples h with
  | (Ok _, event_samples, h') =>
      tables ← event_tables event_samples h';
      summarise_all_events summarise_samples luminosity_distance_to_redshift
                           GWOSC_KEYS tables
  | (Err e, _, _) => Err e
  end.
End Catalog.

(** Two events with tables as the loader builds them. *)
Definition two_events : list (string * loc) := [("GW150914", 0); ("GW151012", 1)].

(** The store after the column assignments of [standardise_samples] on
    [raw_table]. *)
Definition standardised_store : heap Q :=
  (standardise_columns (fmap hubble_redshift) 0 [raw_table]).2.

(** * Facts *)

(** ** Tables *)

Section TableFacts.
Context {F : Type}.
Implicit Types (df : DataFrame F) (c : string) (s : list F).

Lemma df_get_set c c' s df :
  df_get c' (df_set c s df) = if String.eqb c c' then Some s else df_get c' df.
Proof.
  induction df as [|[k v] rest IH]; simpl.
  - by destruct (String.eqb c c').
  - destruct (String.eqb k c) eqn:Ekc; simpl.
    + apply String.eqb_eq in Ekc as ->. by destruct (String.eqb c c').
    + rewrite IH. destruct (String.eqb k c') eqn:Ekc'; [|done].
      apply String.eqb_eq in Ekc' as ->.
      by rewrite String.eqb_sym, Ekc.
Qed.

Lemma df_get_set_eq c s df : df_get c (df_set c s df) = Some s.
Proof. by rewrite df_get_set, String.eqb_refl. Qed.

Lemma df_get_set_ne c c' s df :
  c ≠ c' → df_get c' (df_set c s df) = df_get c' df.
Proof.
  intros Hne. rewrite df_get_set.
  destruct (String.eqb c c') eqn:E; [|done]. by apply String.eqb_eq in E.
Qed.

Lemma df_get_columns c df : is_Some (df_get c df) ↔ c ∈ columns df.
Proof.
  unfold columns. induction df as [|[k v] rest IH]; simpl.
  - split; [by intros [? ?] | by intros ?%elem_of_nil].
  - destruct (String.eqb k c) eqn:E.
    + apply String.eqb_eq in E as ->. split; [intros _; left | by eauto].
    + apply String.eqb_neq in E. rewrite IH, elem_of_cons.
      split; [by right | by intros [?|?]].
Qed.

Lemma extends_refl df : extends df df.
Proof. by intros c s. Qed.

Lemma extends_trans df1 df2 df3 :
  extends df1 df2 → extends df2 df3 → extends df1 df3.
Proof. intros H12 H23 c s Hc. by apply H23, H12. Qed.
End TableFacts.

(** ** The store *)

Section StoreFacts.
Context {F : Type} `{Float64 F}.
Implicit Types (h : heap F) (df : DataFrame F) (l : loc).

Lemma bind_eq {A B} (m : M F A) (k : A → M F B) h :
  (m ≫= k) h = match m h with
               | (Ok a, h') => k a h'
               | (Err e, h') => (Err e, h')
               end.
Proof. reflexivity. Qed.

Lemma store_focus l h df : h !! l = Some df → h = <[l := df]> h.
Proof. intros Hl. by rewrite list_insert_id. Qed.

Lemma getitem_ins l c h df :
  l < length h →
  getitem l c (<[l := df]> h)
  = (match df_get c df with Some s => Ok s | None => Err (KeyError c) end,
     <[l := df]> h).
Proof.
  intros Hl. unfold getitem. rewrite list_lookup_insert_eq by done.
  by destruct (df_get c df).
Qed.

Lemma setitem_ins l c s h df :
  l < length h →
  setitem l c s (<[l := df]> h) = (Ok tt, <[l := df_set c s df]> h).
Proof.
  intros Hl. unfold setitem. rewrite list_lookup_insert_eq by done.
  by rewrite list_insert_insert_eq.
Qed.

Lemma setitem_scalar_ins l c n h df :
  l < length h →
  setitem_scalar l c n (<[l := df]> h)
  = (Ok tt, <[l := df_set c (replicate (nrows df) (of_int n)) df]> h).
Proof.
  intros Hl. unfold setitem_scalar. rewrite list_lookup_insert_eq by done.
  by rewrite list_insert_insert_eq.
Qed.

Lemma copy_eq l h df :
  h !! l = Some df → copy l h = (Ok (length h), h ++ [df]).
Proof. intros Hl. unfold copy. by rewrite Hl. Qed.

(** The helper that returns the table it is given, untouched. *)
Lemma mret_keeps_columns : keeps_columns (mret : loc → M F loc).
Proof.
  intros l h df Hl. exists l, h, df. split_and!; [done | done | apply extends_refl].
Qed.

Lemma mret_adds_no_column c : adds_no_column c (mret : loc → M F loc).
Proof.
  intros l h df l' h' df' Hl Hrun Hl' Hno.
  injection Hrun as <- <-. rewrite Hl in Hl'. by injection Hl' as <-.
Qed.
End StoreFacts.

(** ** The parser *)

Lemma fmt_int_1 : fmt_int 1 = "1".
Proof. reflexivity. Qed.

Lemma fmt_int_2 : fmt_int 2 = "2".
Proof. reflexivity. Qed.

(** Membership in a list of literals. *)
Ltac in_list := repeat first [apply list_elem_of_here | apply list_elem_of_further].

(** The names that the f-strings build. *)
Ltac name_strings :=
  rewrite ?fmt_int_1, ?fmt_int_2;
  repeat match goal with
         | |- context [?a +:+ ?b] =>
             let s := eval vm_compute in (a +:+ b) in change (a +:+ b) with s
         end.

(** One statement of the code, run on a store whose object [l] is known. *)
Ltac run_item :=
  rewrite ?bind_eq;
  first [ rewrite getitem_ins by done
        | rewrite setitem_ins by done
        | rewrite setitem_scalar_ins by done ];
  rewrite ?df_get_set;
  cbn [String.eqb Ascii.eqb Bool.eqb mret M_ret].

Section ParserFacts.
Context {F : Type} `{Float64 F}.
Variable get_redshift_from_dl : list F → list F.
Variable add_aligned_component_spins : loc → M F loc.
Variable sort_columns : loc → M F loc.
Implicit Types (h : heap F) (df : DataFrame F) (l : loc).

Lemma standardise_columns_ok l h df dl m1 a1 t1 m2 a2 t2 ra dec :
  h !! l = Some df →
  df_get "luminosity_distance_Mpc" df = Some dl →
  df_get "m1_detector_frame_Msun" df = Some m1 →
  df_get "spin1" df = Some a1 →
  df_get "costilt1" df = Some t1 →
  df_get "m2_detector_frame_Msun" df = Some m2 →
  df_get "spin2" df = Some a2 →
  df_get "costilt2" df = Some t2 →
  df_get "right_ascension" df = Some ra →
  df_get "declination" df = Some dec →
  standardise_columns get_redshift_from_dl l h
  = (Ok tt, <[l := df_update (assigned_columns get_redshift_from_dl
                                dl m1 a1 t1 m2 a2 t2 ra dec) df]> h).
Proof.
  intros Hl Hdl Hm1 Ha1 Ht1 Hm2 Ha2 Ht2 Hra Hdec.
  assert (l < length h) by by eapply lookup_lt_Some.
  rewrite (store_focus l h df Hl) at 1.
  unfold standardise_columns. cbn [for_each].
  unfold standardise_component. name_strings.
  repeat (run_item; rewrite ?Hdl, ?Hm1, ?Ha1, ?Ht1, ?Hm2, ?Ha2, ?Ht2, ?Hra, ?Hdec).
  reflexivity.
Qed.

Lemma first_missing_Some df c :
  first_missing df = Some c → c ∈ READ_ORDER ∧ df_get c df = None.
Proof.
  intros [Hin Hc]%find_some. split; [by apply list_elem_of_In|].
  by apply bool_decide_eq_true in Hc.
Qed.

Lemma first_missing_None df c :
  first_missing df = None → c ∈ READ_ORDER → is_Some (df_get c df).
Proof.
  intros Hnone Hin%list_elem_of_In.
  pose proof (find_none _ _ Hnone c Hin) as Hc. simpl in Hc.
  apply bool_decide_eq_false in Hc.
  by destruct (df_get c df); [eexists|].
Qed.

Lemma first_missing_is_Some df c :
  c ∈ READ_ORDER → df_get c df = None → is_Some (first_missing df).
Proof.
  intros Hin Hc. destruct (first_missing df) eqn:E; [by eexists|].
  destruct (first_missing_None df c E Hin) as [s Hs]. congruence.
Qed.

Lemma standardise_columns_missing l h df c :
  h !! l = Some df →
  first_missing df = Some c →
  (standardise_columns get_redshift_from_dl l h).1 = Err (KeyError c).
Proof.
  intros Hl Hfm.
  assert (l < length h) by by eapply lookup_lt_Some.
  rewrite (store_focus l h df Hl) at 1.
  unfold first_missing, READ_ORDER in Hfm. cbn [List.find] in Hfm.
  unfold standardise_columns. cbn [for_each].
  unfold standardise_component. name_strings.
  repeat (run_item;
          repeat match goal with
                 | E : df_get ?c df = _ |- context [df_get ?c df] => rewrite E
                 end;
          try match goal with
              | |- context [df_get ?c df] =>
                  destruct (df_get c df) eqn:?;
                  [ rewrite bool_decide_eq_false_2 in Hfm by done
                  | rewrite bool_decide_eq_true_2 in Hfm by done;
                    injection Hfm as <-; reflexivity ]
              end).
  discriminate Hfm.
Qed.

Lemma with_defaults_other df c :
  c ∉ DEFAULTED → df_get c (with_defaults df) = df_get c df.
Proof.
  unfold DEFAULTED. rewrite !not_elem_of_cons. intros (? & ? & ? & ? & _).
  unfold with_defaults, DEFAULTED. cbn [foldl].
  by rewrite !df_get_set_ne by done.
Qed.

Lemma with_defaults_get df c :
  c ∈ DEFAULTED → ∃ n, df_get c (with_defaults df) = Some (replicate n (of_int 0)).
Proof.
  unfold DEFAULTED. rewrite !elem_of_cons, elem_of_nil.
  unfold with_defaults, DEFAULTED. cbn [foldl].
  intros [-> | [-> | [-> | [-> | []]]]];
    rewrite ?df_get_set; cbn [String.eqb Ascii.eqb Bool.eqb]; by eexists.
Qed.

Lemma defaults_run l h df :
  h !! l = Some df →
  (setitem_scalar l "incl" 0;;
   setitem_scalar l "phi_12" 0;;
   setitem_scalar l "phi_jl" 0;;
   setitem_scalar l "geocent_time" 0;;
   mret l) h
  = (Ok l, <[l := with_defaults df]> h).
Proof.
  intros Hl. assert (l < length h) by by eapply lookup_lt_Some.
  rewrite (store_focus l h df Hl) at 1.
  by do 4 run_item.
Qed.

(** A run of [standardise_samples] on a table with the nine source
    columns: the table returned extends the defaulted extension of the
    table that [standardise_columns] leaves. *)
Lemma standardise_samples_ok l h df dl m1 a1 t1 m2 a2 t2 ra dec :
  keeps_columns add_aligned_component_spins →
  keeps_columns sort_columns →
  h !! l = Some df →
  df_get "luminosity_distance_Mpc" df = Some dl →
  df_get "m1_detector_frame_Msun" df = Some m1 →
  df_get "spin1" df = Some a1 →
  df_get "costilt1" df = Some t1 →
  df_get "m2_detector_frame_Msun" df = Some m2 →
  df_get "spin2" df = Some a2 →
  df_get "costilt2" df = Some t2 →
  df_get "right_ascension" df = Some ra →
  df_get "declination" df = Some dec →
  ∃ l' h' mid out,
    standardise_samples get_redshift_from_dl add_aligned_component_spins
                        sort_columns l h = (Ok l', h')
    ∧ h' !! l' = Some out
    ∧ extends (df_update (assigned_columns get_redshift_from_dl
                            dl m1 a1 t1 m2 a2 t2 ra dec) df) mid
    ∧ extends (with_defaults mid) out.
Proof.
  intros Hadd Hsort Hl Hdl Hm1 Ha1 Ht1 Hm2 Ha2 Ht2 Hra Hdec.
  assert (l < length h) by by eapply lookup_lt_Some.
  unfold standardise_samples, sort_parameters, standardise_samples_undecorated.
  rewrite !bind_eq.
  rewrite (standardise_columns_ok l h df dl m1 a1 t1 m2 a2 t2 ra dec) by done.
  cbv beta iota. rewrite ?bind_eq.
  set (df1 := df_update _ df).
  destruct (Hadd l (<[l := df1]> h) df1) as (l2 & h2 & mid & -> & Hl2 & Hext);
    [by apply list_lookup_insert_eq|].
  assert (l2 < length h2) by by eapply lookup_lt_Some.
  cbv beta iota. rewrite (defaults_run l2 h2 mid Hl2). cbv beta iota.
  destruct (Hsort l2 (<[l2 := with_defaults mid]> h2) (with_defaults mid))
    as (l' & h' & out & -> & Hl' & Hext'); [by apply list_lookup_insert_eq|].
  by exists l', h', mid, out.
Qed.

(** A run of [standardise_samples] is the run of its column assignments,
    then of the rest of the function and of the decorator on the store that
    they leave. *)
Lemma standardise_samples_split l h df1 :
  standardise_columns get_redshift_from_dl l h = (Ok tt, <[l := df1]> h) →
  standardise_samples get_redshift_from_dl add_aligned_component_spins
                      sort_columns l h
  = (out ← standardise_rest add_aligned_component_spins l; sort_columns out)
      (<[l := df1]> h).
Proof.
  intros Hrun.
  unfold standardise_samples, sort_parameters, standardise_samples_undecorated,
    standardise_rest.
  rewrite !bind_eq, Hrun. reflexivity.
Qed.

(** When the rest of the function returns, the helper returned a live table
    and the four defaulted columns were set in it. *)
Lemma standardise_rest_inv l h l' h' :
  standardise_rest add_aligned_component_spins l h = (Ok l', h') →
  ∃ h2 mid,
    add_aligned_component_spins l h = (Ok l', h2)
    ∧ h2 !! l' = Some mid
    ∧ h' = <[l' := with_defaults mid]> h2.
Proof.
  unfold standardise_rest. rewrite bind_eq.
  destruct (add_aligned_component_spins l h) as [[l2|e] h2]; [|discriminate].
  destruct (h2 !! l2) as [mid|] eqn:Hl2.
  - rewrite (defaults_run l2 h2 mid Hl2). intros [= <- <-]. by exists h2, mid.
  - rewrite bind_eq. unfold setitem_scalar at 1. rewrite Hl2. discriminate.
Qed.

(** A failing run: the exception names the first absent source column. *)
Lemma missing_column_raises l h df c :
  h !! l = Some df →
  first_missing df = Some c →
  (standardise_samples get_redshift_from_dl add_aligned_component_spins
                       sort_columns l h).1 = Err (KeyError c).
Proof.
  intros Hl Hfm.
  pose proof (standardise_columns_missing l h df c Hl Hfm) as Hrun.
  unfold standardise_samples, sort_parameters, standardise_samples_undecorated.
  rewrite !bind_eq.
  destruct (standardise_columns get_redshift_from_dl l h) as [[[]|e] h'];
    simpl in Hrun; [discriminate|]. by injection Hrun as ->.
Qed.

(** The columns of a table with all of [SEARCH_PARAMS]. *)
Lemma source_columns df :
  (∀ c, c ∈ SEARCH_PARAMS → has_column c df) →
  ∃ dl m1 a1 t1 m2 a2 t2 ra dec,
    df_get "luminosity_distance_Mpc" df = Some dl
    ∧ df_get "m1_detector_frame_Msun" df = Some m1
    ∧ df_get "spin1" df = Some a1
    ∧ df_get "costilt1" df = Some t1
    ∧ df_get "m2_detector_frame_Msun" df = Some m2
    ∧ df_get "spin2" df = Some a2
    ∧ df_get "costilt2" df = Some t2
    ∧ df_get "right_ascension" df = Some ra
    ∧ df_get "declination" df = Some dec.
Proof.
  intros Hcols.
  assert (∀ c, c ∈ SEARCH_PARAMS → ∃ s, df_get c df = Some s) as Hget
    by (intros c Hc; apply (Hcols c Hc)).
  destruct (Hget "luminosity_distance_Mpc") as [dl ?]; [in_list|].
  destruct (Hget "m1_detector_frame_Msun") as [m1 ?]; [in_list|].
  destruct (Hget "spin1") as [a1 ?]; [in_list|].
  destruct (Hget "costilt1") as [t1 ?]; [in_list|].
  destruct (Hget "m2_detector_frame_Msun") as [m2 ?]; [in_list|].
  destruct (Hget "spin2") as [a2 ?]; [in_list|].
  destruct (Hget "costilt2") as [t2 ?]; [in_list|].
  destruct (Hget "right_ascension") as [ra ?]; [in_list|].
  destruct (Hget "declination") as [dec ?]; [in_list|].
  by exists dl, m1, a1, t1, m2, a2, t2, ra, dec.
Qed.

(** A column that [standardise_columns] leaves is in the table returned,
    unless it is one of the four defaulted ones. *)
Lemma returned_column (df1 mid out : DataFrame F) c s :
  extends df1 mid → extends (with_defaults mid) out →
  c ∉ DEFAULTED → df_get c df1 = Some s → df_get c out = Some s.
Proof.
  intros Hmid Hout Hc Hget. apply Hout.
  rewrite with_defaults_other by done. by apply Hmid.
Qed.

Lemma returned_default (mid out : DataFrame F) c :
  extends (with_defaults mid) out → c ∈ DEFAULTED → has_column c out.
Proof.
  intros Hout Hc. destruct (with_defaults_get mid c Hc) as [n Hn].
  exists (replicate n (of_int 0)). by apply Hout.
Qed.

Lemma assigned_other df new c :
  c ∉ new.*1 → df_get c (df_update new df) = df_get c df.
Proof.
  unfold df_update. revert df.
  induction new as [|[k v] new IH]; intros df Hc; [done|].
  rewrite fmap_cons, not_elem_of_cons in Hc. destruct Hc as [Hk Hc].
  cbn [foldl]. rewrite IH by done. by apply df_get_set_ne.
Qed.

Lemma convert_run l h df m1 m2 ra dec :
  h !! l = Some df →
  df_get "m1_detector_frame_Msun" df = Some m1 →
  df_get "m2_detector_frame_Msun" df = Some m2 →
  df_get "right_ascension" df = Some ra →
  df_get "declination" df = Some dec →
  convert_df_to_gwosc_df l h
  = (Ok (length h), h ++ [df_update (converted_columns m1 m2 ra dec) df]).
Proof.
  intros Hl Hm1 Hm2 Hra Hdec.
  unfold convert_df_to_gwosc_df. rewrite bind_eq, (copy_eq l h df Hl).
  assert (length h < length (h ++ [df])) by (rewrite length_app; simpl; lia).
  rewrite (store_focus (length h) (h ++ [df]) df) by apply list_lookup_middle, eq_refl.
  repeat (run_item; rewrite ?Hm1, ?Hm2, ?Hra, ?Hdec).
  rewrite insert_app_r_alt, Nat.sub_diag by done. reflexivity.
Qed.
End ParserFacts.

(** Looking up one of the columns that [standardise_columns] assigns. *)
Ltac get_assigned :=
  unfold df_update, assigned_columns, converted_columns; cbn [foldl];
  rewrite ?df_get_set; cbn [String.eqb Ascii.eqb Bool.eqb].

(** ** What [standardise_samples] returns *)

Section ParserClaims.
Context {F : Type} `{Float64 F}.
Variable get_redshift_from_dl : list F → list F.
Variable add_aligned_component_spins : loc → M F loc.
Variable sort_columns : loc → M F loc.
Implicit Types (h : heap F) (df : DataFrame F) (l : loc).

#[local] Abbreviation standardise :=
  (standardise_samples get_redshift_from_dl add_aligned_component_spins sort_columns).

(** The table returned has the seventeen columns of [ASSIGNED]. *)
Lemma returned_assigned df dl m1 a1 t1 m2 a2 t2 ra dec (mid out : DataFrame F) :
  extends (df_update (assigned_columns get_redshift_from_dl
                        dl m1 a1 t1 m2 a2 t2 ra dec) df) mid →
  extends (with_defaults mid) out →
  ∀ c, c ∈ ASSIGNED → has_column c out.
Proof.
  intros Hmid Hout c Hc. unfold ASSIGNED in Hc.
  repeat (apply elem_of_cons in Hc as [-> | Hc]);
    try (by apply elem_of_nil in Hc);
    try (by apply (returned_default mid); [|in_list]);
    (eexists; eapply (returned_column _ mid); [done | done | | get_assigned; reflexivity]);
    unfold DEFAULTED; rewrite !not_elem_of_cons; by split_and!; [..|apply not_elem_of_nil].
Qed.

(** The detector-frame masses [mass_1] and [mass_2] are not among the
    columns that [standardise_samples] assigns. *)
Lemma not_assigned_mass c :
  c ∈ ["mass_1"; "mass_2"] → c ∉ ASSIGNED.
Proof.
  intros Hc Hin.
  repeat (apply elem_of_cons in Hc as [-> | Hc]); try (by apply elem_of_nil in Hc);
    unfold ASSIGNED in Hin;
    repeat (apply elem_of_cons in Hin as [Hin | Hin]; [discriminate Hin|]);
    by apply elem_of_nil in Hin.
Qed.

(** C1.  The claim fails on the code: no statement of [standardise_samples]
    assigns [mass_1] or [mass_2].  On a table that has the source columns of
    the parser and no column [c], for [c] one of [mass_1], [mass_2]: the
    column assignments succeed and leave the table without [c]; that table
    is the one handed to [add_aligned_component_spins]; the four scalar
    assignments that follow add no [c] either.  So a table that
    [standardise_samples] returns has a column [c] only if one of the two
    helpers of [utils] added it: when neither does, no table returned has
    it. *)
Theorem standardise_samples_never_assigns_detector_masses l h df c :
  h !! l = Some df →
  (∀ c', c' ∈ SEARCH_PARAMS → has_column c' df) →
  c ∈ ["mass_1"; "mass_2"] →
  ¬ has_column c df →
  ∃ df1,
    standardise_columns get_redshift_from_dl l h = (Ok tt, <[l := df1]> h)
    ∧ ¬ has_column c df1
    ∧ standardise l h
      = (out ← standardise_rest add_aligned_component_spins l; sort_columns out)
          (<[l := df1]> h)
    ∧ (∀ mid, ¬ has_column c mid → ¬ has_column c (with_defaults mid))
    ∧ (adds_no_column c add_aligned_component_spins →
       adds_no_column c sort_columns →
       ∀ l' h' out,
         standardise l h = (Ok l', h') → h' !! l' = Some out → ¬ has_column c out).
Proof.
  intros Hl Hcols Hc Hno.
  assert (l < length h) as Hlt by by eapply lookup_lt_Some.
  destruct (source_columns df Hcols)
    as (dl & m1 & a1 & t1 & m2 & a2 & t2 & ra & dec & Hdl & Hm1 & Ha1 & Ht1
        & Hm2 & Ha2 & Ht2 & Hra & Hdec).
  pose proof (standardise_columns_ok get_redshift_from_dl l h df
                dl m1 a1 t1 m2 a2 t2 ra dec Hl Hdl Hm1 Ha1 Ht1 Hm2 Ha2 Ht2 Hra Hdec)
    as Hrun.
  set (df1 := df_update _ df) in Hrun.
  assert (c ∉ ASSIGNED) as Hc' by by apply not_assigned_mass.
  assert (c ∉ DEFAULTED) as Hd.
  { intros Hd. apply Hc'. unfold DEFAULTED in Hd. unfold ASSIGNED.
    repeat (apply elem_of_cons in Hd as [-> | Hd]);
      try (by apply elem_of_nil in Hd); in_list. }
  assert (¬ has_column c df1) as Hno1.
  { unfold has_column, df1. rewrite assigned_other; [done|].
    intros Hin. apply Hc'. unfold assigned_columns in Hin.
    cbn [fmap list_fmap fst] in Hin. unfold ASSIGNED.
    repeat (apply elem_of_cons in Hin as [-> | Hin]);
      try (by apply elem_of_nil in Hin); in_list. }
  assert (∀ mid : DataFrame F, ¬ has_column c mid → ¬ has_column c (with_defaults mid))
    as Hdef.
  { intros mid Hmid. unfold has_column. by rewrite with_defaults_other. }
  exists df1.
  split_and!; [done | done | by apply standardise_samples_split | done |].
  intros Hadd Hsort l' h' out Hret Hl' Hout.
  rewrite (standardise_samples_split get_redshift_from_dl add_aligned_component_spins
             sort_columns l h df1 Hrun), bind_eq in Hret.
  destruct (standardise_rest add_aligned_component_spins l (<[l := df1]> h))
    as [[l2|e] h2] eqn:Hrest; [|discriminate].
  destruct (standardise_rest_inv _ _ _ _ _ Hrest) as (h3 & mid & Hcall & Hl2 & ->).
  assert (l2 < length h3) by by eapply lookup_lt_Some.
  refine (Hsort l2 _ (with_defaults mid) l' h' out _ Hret Hl' _ Hout).
  - by apply list_lookup_insert_eq.
  - apply Hdef.
    refine (Hadd l _ df1 l2 h3 mid _ Hcall Hl2 Hno1).
    by apply list_lookup_insert_eq.
Qed.

(** On a table that has the source columns of the parser,
    [standardise_samples] returns a table with the seventeen columns of
    [ASSIGNED]: every canonical column other than [mass_1] and [mass_2]. *)
Theorem standardise_samples_assigns_schema l h df :
  keeps_columns add_aligned_component_spins →
  keeps_columns sort_columns →
  h !! l = Some df →
  (∀ c, c ∈ SEARCH_PARAMS → has_column c df) →
  ∃ l' h' out,
    standardise l h = (Ok l', h')
    ∧ h' !! l' = Some out
    ∧ ∀ c, c ∈ ASSIGNED → has_column c out.
Proof.
  intros Hadd Hsort Hl Hcols.
  destruct (source_columns df Hcols)
    as (dl & m1 & a1 & t1 & m2 & a2 & t2 & ra & dec & Hdl & Hm1 & Ha1 & Ht1
        & Hm2 & Ha2 & Ht2 & Hra & Hdec).
  destruct (standardise_samples_ok get_redshift_from_dl add_aligned_component_spins
              sort_columns l h df dl m1 a1 t1 m2 a2 t2 ra dec)
    as (l' & h' & mid & out & Hrun & Hl' & Hmid & Hout); try done.
  exists l', h', out. split_and!; [done..|].
  by eapply returned_assigned.
Qed.

(** C5.  On a raw table (one that has the source columns of the parser,
    the spin columns among them), the table returned has the spin
    magnitudes [spin1], [spin2] as [a_1], [a_2], the cosines [costilt1],
    [costilt2] as [cos_tilt_1], [cos_tilt_2], and the same cosines, row
    for row, as [spin_1z], [spin_2z]. *)
Theorem standardise_samples_spin_columns l h df :
  keeps_columns add_aligned_component_spins →
  keeps_columns sort_columns →
  h !! l = Some df →
  (∀ c, c ∈ SEARCH_PARAMS → has_column c df) →
  ∃ l' h' out,
    standardise l h = (Ok l', h')
    ∧ h' !! l' = Some out
    ∧ df_get "a_1" out = df_get "spin1" df
    ∧ df_get "a_2" out = df_get "spin2" df
    ∧ df_get "cos_tilt_1" out = df_get "costilt1" df
    ∧ df_get "cos_tilt_2" out = df_get "costilt2" df
    ∧ df_get "spin_1z" out = df_get "costilt1" df
    ∧ df_get "spin_2z" out = df_get "costilt2" df.
Proof.
  intros Hadd Hsort Hl Hcols.
  destruct (source_columns df Hcols)
    as (dl & m1 & a1 & t1 & m2 & a2 & t2 & ra & dec & Hdl & Hm1 & Ha1 & Ht1
        & Hm2 & Ha2 & Ht2 & Hra & Hdec).
  destruct (standardise_samples_ok get_redshift_from_dl add_aligned_component_spins
              sort_columns l h df dl m1 a1 t1 m2 a2 t2 ra dec)
    as (l' & h' & mid & out & Hrun & Hl' & Hmid & Hout); try done.
  exists l', h', out. rewrite Ha1, Ha2, Ht1, Ht2.
  split_and!; [done..| | | | | |];
    (eapply (returned_column _ mid); [done | done | | get_assigned; reflexivity]);
    unfold DEFAULTED; rewrite !not_elem_of_cons; by split_and!; [..|apply not_elem_of_nil].
Qed.


(** C7.  On a table that lacks one of the source columns that
    [standardise_samples] reads, the call raises [KeyError] and returns no
    table; the key of the error is an absent source column, the first one
    in the order of the reads, hence the absent column when only one is
    absent. *)
Theorem standardise_samples_missing_column l h df c :
  h !! l = Some df →
  c ∈ READ_ORDER →
  ¬ has_column c df →
  ∃ c',
    (standardise l h).1 = Err (KeyError c')
    ∧ c' ∈ READ_ORDER
    ∧ ¬ has_column c' df
    ∧ first_missing df = Some c'
    ∧ ((∀ c'', c'' ∈ READ_ORDER → c'' ≠ c → has_column c'' df) → c' = c).
Proof.
  intros Hl Hc Hno.
  assert (df_get c df = None) as Hnone.
  { destruct (df_get c df) eqn:E; [|done]. destruct Hno. by eexists. }
  destruct (first_missing_is_Some df c Hc Hnone) as [c' Hc'].
  destruct (first_missing_Some df c' Hc') as [Hin Hnone'].
  exists c'. split_and!; [|done| |done|].
  - by apply missing_column_raises with df.
  - intros [s Hs]. congruence.
  - intros Honly. destruct (decide (c' = c)) as [|Hne]; [done|].
    destruct (Honly c' Hin Hne) as [s Hs]. congruence.
Qed.

End ParserClaims.

(** ** The parser on the concrete table *)

Lemma raw_table_columns c : c ∈ SEARCH_PARAMS → has_column c raw_table.
Proof.
  intros Hc. unfold SEARCH_PARAMS in Hc.
  repeat (apply elem_of_cons in Hc as [-> | Hc]);
    try (by apply elem_of_nil in Hc); by eexists.
Qed.

(** The columns of the table that [standardise_samples] returns for
    [raw_table]. *)
Example standardise_raw_table :
  ∃ out,
    standardise_samples (fmap hubble_redshift) mret mret 0 [raw_table] = (Ok 0, [out])
    ∧ columns out
      = SEARCH_PARAMS
          ++ [ "luminosity_distance"; "redshift";
               "mass_1_source"; "a_1"; "cos_tilt_1"; "spin_1z";
               "mass_2_source"; "a_2"; "cos_tilt_2"; "spin_2z";
               "mass_ratio"; "ra"; "dec";
               "incl"; "phi_12"; "phi_jl"; "geocent_time" ].
Proof. eexists. split; vm_compute; reflexivity. Qed.

(** On [raw_table], [spin_1z] is the cosine column and not the product of
    the spin magnitude and the cosine. *)
Example raw_table_spin_1z :
  ∃ out,
    standardise_samples (fmap hubble_redshift) mret mret 0 [raw_table] = (Ok 0, [out])
    ∧ df_get "spin_1z" out = df_get "costilt1" raw_table
    ∧ df_get "spin_1z" out ≠ Some (zip_with Qmult [1 # 2; 3 # 10; 2 # 5] [1 # 5; -(1 # 2); 1 # 10])%Q.
Proof. eexists. split_and!; [vm_compute; reflexivity..|]. vm_compute. discriminate. Qed.

Lemma standardise_samples_assigns_schema_witness :
  ∃ l' h' out,
    standardise_samples (fmap hubble_redshift) mret mret 0 [raw_table] = (Ok l', h')
    ∧ h' !! l' = Some out
    ∧ ∀ c, c ∈ ASSIGNED → has_column c out.
Proof.
  apply (standardise_samples_assigns_schema
           (fmap hubble_redshift) mret mret 0 [raw_table] raw_table).
  - apply mret_keeps_columns.
  - apply mret_keeps_columns.
  - reflexivity.
  - apply raw_table_columns.
Defined.

Lemma standardise_samples_never_assigns_detector_masses_witness :
  ∃ df1,
    standardise_columns (fmap hubble_redshift) 0 [raw_table]
    = (Ok tt, <[0 := df1]> [raw_table])
    ∧ ¬ has_column "mass_1" df1
    ∧ standardise_samples (fmap hubble_redshift) mret mret 0 [raw_table]
      = (out ← standardise_rest mret 0; mret out) (<[0 := df1]> [raw_table])
    ∧ (∀ mid : DataFrame Q,
         ¬ has_column "mass_1" mid → ¬ has_column "mass_1" (with_defaults mid))
    ∧ ∀ l' h' out,
        standardise_samples (fmap hubble_redshift) mret mret 0 [raw_table] = (Ok l', h') →
        h' !! l' = Some out → ¬ has_column "mass_1" out.
Proof.
  destruct (standardise_samples_never_assigns_detector_masses
              (fmap hubble_redshift) mret mret 0 [raw_table] raw_table "mass_1")
    as (df1 & Hcols & Hno & Hsplit & Hdef & Hret).
  - reflexivity.
  - apply raw_table_columns.
  - in_list.
  - intros [s Hs]. vm_compute in Hs. discriminate Hs.
  - exists df1. split_and!; [exact Hcols | exact Hno | exact Hsplit | exact Hdef |].
    apply Hret; apply mret_adds_no_column.
Defined.

Lemma standardise_samples_spin_columns_witness :
  ∃ l' h' out,
    standardise_samples (fmap hubble_redshift) mret mret 0 [raw_table] = (Ok l', h')
    ∧ h' !! l' = Some out
    ∧ df_get "a_1" out = df_get "spin1" raw_table
    ∧ df_get "a_2" out = df_get "spin2" raw_table
    ∧ df_get "cos_tilt_1" out = df_get "costilt1" raw_table
    ∧ df_get "cos_tilt_2" out = df_get "costilt2" raw_table
    ∧ df_get "spin_1z" out = df_get "costilt1" raw_table
    ∧ df_get "spin_2z" out = df_get "costilt2" raw_table.
Proof.
  apply (standardise_samples_spin_columns
           (fmap hubble_redshift) mret mret 0 [raw_table] raw_table).
  - apply mret_keeps_columns.
  - apply mret_keeps_columns.
  - reflexivity.
  - apply raw_table_columns.
Defined.






Lemma standardise_samples_missing_column_witness :
  ∃ c',
    (standardise_samples (fmap hubble_redshift) mret mret 0 [raw_table_no_spin2]).1
    = Err (KeyError c')
    ∧ c' ∈ READ_ORDER
    ∧ ¬ has_column c' raw_table_no_spin2
    ∧ first_missing raw_table_no_spin2 = Some c'
    ∧ ((∀ c'', c'' ∈ READ_ORDER → c'' ≠ "spin2" → has_column c'' raw_table_no_spin2)
       → c' = "spin2").
Proof.
  apply (standardise_samples_missing_column
           (fmap hubble_redshift) mret mret 0 [raw_table_no_spin2] raw_table_no_spin2).
  - reflexivity.
  - unfold READ_ORDER. in_list.
  - intros [s Hs]. vm_compute in Hs. discriminate Hs.
Defined.

(** ** The event summariser *)

Section SummariserFacts.
Context {F : Type} `{Float64 F}.
Variable summarise_samples : list F → F * F * F.
Variable luminosity_distance_to_redshift : F → F.
Variable GWOSC_KEYS : list string.
Implicit Types (summary computed : gmap string F) (df : DataFrame F).

#[local] Abbreviation derive := (derive_secondary luminosity_distance_to_redshift).

(** The second loop either finds its fifteen inputs and derives from them,
    or raises [KeyError] for the first one that is absent. *)
Lemma derive_secondary_cases summary :
  (∃ computed, derive summary = Ok computed
               ∧ derived_from luminosity_distance_to_redshift summary computed)
  ∨ (∃ k, k ∈ SECONDARY_INPUTS ∧ summary !! k = None
          ∧ derive summary = Err (KeyError k)).
Proof.
  unfold derived_from, derive_secondary, POSITIONS, MASS_KEYS.
  cbn [for_fold]. unfold derive_position, MASS_KEYS. cbn [for_fold].
  unfold source_frame, dict_getitem. name_strings.
  repeat first
    [ progress cbv [mbind result_bind mret result_ret]
    | rewrite lookup_insert_eq
    | rewrite lookup_insert_ne by done
    | match goal with
      | |- context [summary !! ?k] =>
          lazymatch goal with
          | E : summary !! k = _ |- _ => rewrite E
          | _ => destruct (summary !! k) eqn:?;
                 [| right; exists k; split_and!;
                    [unfold SECONDARY_INPUTS; in_list | done | reflexivity]]
          end
      end ].
  left. eexists. split; [reflexivity|].
  intros pt Hpt. unfold POSITIONS in Hpt.
  repeat (apply elem_of_cons in Hpt as [-> | Hpt]);
    try (by apply elem_of_nil in Hpt);
    (eexists; split_and!;
     [ name_strings; eassumption
     | name_strings; rewrite ?lookup_insert_ne by done; apply lookup_insert_eq
     | intros key Hkey; unfold MASS_KEYS in Hkey;
       repeat (apply elem_of_cons in Hkey as [-> | Hkey]);
       try (by apply elem_of_nil in Hkey);
       (eexists; split;
        [ name_strings; eassumption
        | name_strings; rewrite ?lookup_insert_ne by done; apply lookup_insert_eq ]) ]).
Qed.


Lemma derive_secondary_inputs summary computed k :
  derive summary = Ok computed → k ∈ SECONDARY_INPUTS → is_Some (summary !! k).
Proof.
  intros Hok Hk.
  destruct (derive_secondary_cases summary)
    as [(computed' & _ & Hfrom) | (k' & _ & _ & Hrun)]; [|congruence].
  destruct (Hfrom "_lower") as (d1 & Hd1 & _ & Hm1); [unfold POSITIONS; in_list|].
  destruct (Hfrom "_upper") as (d2 & Hd2 & _ & Hm2); [unfold POSITIONS; in_list|].
  destruct (Hfrom "") as (d3 & Hd3 & _ & Hm3); [unfold POSITIONS; in_list|].
  unfold SECONDARY_INPUTS in Hk.
  repeat (apply elem_of_cons in Hk as [-> | Hk]);
    try (by apply elem_of_nil in Hk);
    try (by eexists);
    first [ destruct (Hm1 "mass_1") as (m & Hm & _); [unfold MASS_KEYS; in_list|]; by eexists
          | destruct (Hm1 "mass_2") as (m & Hm & _); [unfold MASS_KEYS; in_list|]; by eexists
          | destruct (Hm1 "chirp_mass") as (m & Hm & _); [unfold MASS_KEYS; in_list|]; by eexists
          | destruct (Hm1 "total_mass") as (m & Hm & _); [unfold MASS_KEYS; in_list|]; by eexists
          | destruct (Hm2 "mass_1") as (m & Hm & _); [unfold MASS_KEYS; in_list|]; by eexists
          | destruct (Hm2 "mass_2") as (m & Hm & _); [unfold MASS_KEYS; in_list|]; by eexists
          | destruct (Hm2 "chirp_mass") as (m & Hm & _); [unfold MASS_KEYS; in_list|]; by eexists
          | destruct (Hm2 "total_mass") as (m & Hm & _); [unfold MASS_KEYS; in_list|]; by eexists
          | destruct (Hm3 "mass_1") as (m & Hm & _); [unfold MASS_KEYS; in_list|]; by eexists
          | destruct (Hm3 "mass_2") as (m & Hm & _); [unfold MASS_KEYS; in_list|]; by eexists
          | destruct (Hm3 "chirp_mass") as (m & Hm & _); [unfold MASS_KEYS; in_list|]; by eexists
          | destruct (Hm3 "total_mass") as (m & Hm & _); [unfold MASS_KEYS; in_list|]; by eexists ].
Qed.

Lemma derive_secondary_missing summary k :
  k ∈ SECONDARY_INPUTS → summary !! k = None →
  ∃ k', k' ∈ SECONDARY_INPUTS ∧ summary !! k' = None
        ∧ derive summary = Err (KeyError k').
Proof.
  intros Hk Hnone.
  destruct (derive_secondary_cases summary)
    as [(computed & Hrun & _) | ?]; [|done].
  destruct (derive_secondary_inputs summary computed k Hrun Hk) as [v Hv].
  congruence.
Qed.

(** *** The summary of the columns *)

Lemma length_append (p s : string) :
  String.length (p +:+ s) = String.length p + String.length s.
Proof.
  induction p as [|a p IH]; [done|].
  change (S (String.length (p +:+ s)) = S (String.length p + String.length s)).
  by rewrite IH.
Qed.

Lemma append_ne_self (p s : string) : s ≠ "" → p +:+ s ≠ p.
Proof.
  intros Hs Heq. apply (f_equal String.length) in Heq.
  rewrite length_append in Heq. destruct s; [done|]. simpl in Heq. lia.
Qed.

Lemma store_summary_lower summary p col x y z :
  summarise_samples col = (x, y, z) →
  store_summary summarise_samples summary p col !! (p +:+ "_lower") = Some x.
Proof.
  intros Hs. unfold store_summary. rewrite Hs.
  rewrite lookup_insert_ne by (symmetry; by apply append_ne_self).
  rewrite lookup_insert_ne by (intros Heq%(inj (String.app p)); discriminate Heq).
  apply lookup_insert_eq.
Qed.

Lemma store_summary_upper summary p col x y z :
  summarise_samples col = (x, y, z) →
  store_summary summarise_samples summary p col !! (p +:+ "_upper") = Some y.
Proof.
  intros Hs. unfold store_summary. rewrite Hs.
  rewrite lookup_insert_ne by (symmetry; by apply append_ne_self).
  apply lookup_insert_eq.
Qed.

Lemma store_summary_self summary p col x y z :
  summarise_samples col = (x, y, z) →
  store_summary summarise_samples summary p col !! p = Some z.
Proof. intros Hs. unfold store_summary. rewrite Hs. apply lookup_insert_eq. Qed.

Lemma store_summary_other summary p col k :
  k ∉ keys_of p →
  store_summary summarise_samples summary p col !! k = summary !! k.
Proof.
  unfold keys_of. rewrite !not_elem_of_cons. intros (? & ? & ? & _).
  unfold store_summary. destruct (summarise_samples col) as [[x y] z].
  by rewrite !lookup_insert_ne by done.
Qed.

#[local] Abbreviation step df :=
  (λ summary param,
     match df_get param df with
     | Some col => store_summary summarise_samples summary param col
     | None => summary
     end).

(** An entry that the column [p] writes stays, when no other column
    writes its key. *)
Lemma summarise_fold_keeps df p k v ps acc :
  (∀ q, q ∈ ps → q ≠ p → k ∉ keys_of q) →
  (∀ acc', step df acc' p !! k = Some v) →
  p ∈ ps ∨ acc !! k = Some v →
  foldl (step df) acc ps !! k = Some v.
Proof.
  intros Hclash Hp. revert acc.
  induction ps as [|q ps IH]; intros acc Hstart; cbn [foldl].
  - destruct Hstart as [?%elem_of_nil|?]; done.
  - apply IH.
    { intros q' Hq'. apply Hclash. by right. }
    destruct (decide (q = p)) as [->|Hne]; [by right|].
    destruct Hstart as [Hin|Hacc].
    + apply elem_of_cons in Hin as [->|Hin]; [done|by left].
    + right. destruct (df_get q df); [|done].
      rewrite store_summary_other; [done|]. apply Hclash; [by left|done].
Qed.

(** Every key of the summary is one of the three keys of a column. *)
Lemma summarise_fold_keys df k ps acc :
  is_Some (foldl (step df) acc ps !! k) →
  is_Some (acc !! k) ∨ ∃ q, q ∈ ps ∧ k ∈ keys_of q.
Proof.
  revert acc. induction ps as [|q ps IH]; intros acc Hk; cbn [foldl] in Hk.
  - by left.
  - destruct (IH _ Hk) as [Hacc | (q' & Hq' & Hkeys)].
    + destruct (decide (k ∈ keys_of q)) as [Hin|Hnotin].
      * right. exists q. split; [by left|done].
      * left. destruct (df_get q df); [|done].
        by rewrite store_summary_other in Hacc.
    + right. exists q'. split; [by right|done].
Qed.

Lemma append_nil (s : string) : "" +:+ s = s.
Proof. reflexivity. Qed.

Lemma append_String a (p s : string) : String a p +:+ s = String a (p +:+ s).
Proof. reflexivity. Qed.

Lemma summarise_columns_keys df k :
  is_Some (summarise_columns summarise_samples df !! k) →
  ∃ q, q ∈ columns df ∧ k ∈ keys_of q.
Proof.
  intros Hk. destruct (summarise_fold_keys df k _ _ Hk) as [Hempty|?]; [|done].
  rewrite lookup_empty in Hempty. by destruct Hempty.
Qed.

(** *** The published record *)

Lemma publish_fold_lookup computed ks (acc : gmap string (pyval F)) k :
  foldl (λ d k', <[k' := dict_get computed k']> d) acc ks !! k
  = if decide (k ∈ ks) then Some (dict_get computed k) else acc !! k.
Proof.
  revert acc. induction ks as [|k0 ks IH]; intros acc; cbn [foldl].
  - rewrite decide_False; [done|]. apply not_elem_of_nil.
  - rewrite IH. destruct (decide (k ∈ ks)) as [Hin|Hnotin].
    + rewrite decide_True; [done|by right].
    + destruct (decide (k = k0)) as [->|Hne].
      * rewrite lookup_insert_eq, decide_True; [done|by left].
      * rewrite lookup_insert_ne by done.
        rewrite decide_False; [done|]. by apply not_elem_of_cons.
Qed.

Lemma record_lookup computed name k :
  <["commonName" := PyStr name]> (publish GWOSC_KEYS computed) !! k
  = if decide (k = "commonName") then Some (PyStr name)
    else if decide (k = "version") then Some (PyInt 1)
    else if decide (k ∈ GWOSC_KEYS) then Some (dict_get computed k)
    else None.
Proof.
  unfold publish.
  destruct (decide (k = "commonName")) as [->|?]; [apply lookup_insert_eq|].
  rewrite lookup_insert_ne by done.
  destruct (decide (k = "version")) as [->|?]; [apply lookup_insert_eq|].
  rewrite lookup_insert_ne by done.
  by rewrite publish_fold_lookup, lookup_empty.
Qed.

Lemma record_dom computed name :
  dom (<["commonName" := PyStr name]> (publish GWOSC_KEYS computed))
  = list_to_set GWOSC_KEYS ∪ {["commonName"; "version"]}.
Proof.
  apply set_eq. intros k.
  rewrite elem_of_dom, record_lookup, elem_of_union, elem_of_list_to_set,
    elem_of_union, !elem_of_singleton.
  repeat case_decide; split; intros; try done; try (by eexists); tauto.
Qed.

Lemma summarise_event_eq acc n df :
  summarise_event summarise_samples luminosity_distance_to_redshift GWOSC_KEYS
                  acc (n, df)
  = match derive (summarise_columns summarise_samples df) with
    | Ok computed =>
        Ok (<[n := <["commonName" := PyStr n]> (publish GWOSC_KEYS computed)]> acc)
    | Err e => Err e
    end.
Proof.
  unfold summarise_event, summarise_event_df.
  by destruct (derive (summarise_columns summarise_samples df)).
Qed.

(** Every entry of the catalogue is the record of one of the events. *)
Lemma summarise_all_events_entries evs acc catalog name record :
  for_fold (summarise_event summarise_samples luminosity_distance_to_redshift
                            GWOSC_KEYS) acc evs = Ok catalog →
  catalog !! name = Some record →
  acc !! name = Some record
  ∨ ∃ df computed,
      (name, df) ∈ evs
      ∧ derive (summarise_columns summarise_samples df) = Ok computed
      ∧ record = <["commonName" := PyStr name]> (publish GWOSC_KEYS computed).
Proof.
  revert acc. induction evs as [|[n df] evs IH]; intros acc Hrun Hrec.
  - left. by injection Hrun as ->.
  - cbn [for_fold] in Hrun. rewrite summarise_event_eq in Hrun.
    destruct (derive (summarise_columns summarise_samples df)) as [computed|e] eqn:Hd;
      [|discriminate Hrun].
    change (for_fold (summarise_event summarise_samples luminosity_distance_to_redshift
                        GWOSC_KEYS)
              (<[n := <["commonName" := PyStr n]> (publish GWOSC_KEYS computed)]> acc)
              evs = Ok catalog) in Hrun.
    destruct (IH _ Hrun Hrec) as [Hacc | (df' & computed' & Hin & Hd' & ->)].
    + destruct (decide (n = name)) as [->|Hne].
      * rewrite lookup_insert_eq in Hacc. injection Hacc as <-.
        right. exists df, computed. split_and!; [by left|done..].
      * rewrite lookup_insert_ne in Hacc by done. by left.
    + right. exists df', computed'. split_and!; [by right|done..].
Qed.
End SummariserFacts.

(** [p +:+ suffix] is not the literal on the other side of [H]. *)
Ltac no_such_prefix H p :=
  repeat (destruct p as [|? p];
          [ rewrite append_nil in H; discriminate H
          | rewrite append_String in H; first [discriminate H | injection H as _ H] ]).

Section SummariserClaims.
Context {F : Type} `{Float64 F}.
Variable summarise_samples : list F → F * F * F.
Variable luminosity_distance_to_redshift : F → F.
Variable GWOSC_KEYS : list string.
Implicit Types (df : DataFrame F) (h : heap F).

#[local] Abbreviation summarise_df :=
  (summarise_event_df summarise_samples luminosity_distance_to_redshift GWOSC_KEYS).
#[local] Abbreviation primary := (summarise_columns summarise_samples).
#[local] Abbreviation derive := (derive_secondary luminosity_distance_to_redshift).

Lemma summarise_event_df_eq df :
  summarise_df df
  = match derive (primary df) with
    | Ok computed => Ok (publish GWOSC_KEYS computed)
    | Err e => Err e
    end.
Proof. unfold summarise_event_df. by destruct (derive (primary df)). Qed.

Lemma primary_own_column df k :
  (∀ q, q +:+ "_lower" ≠ k) → (∀ q, q +:+ "_upper" ≠ k) →
  k ∉ columns df → primary df !! k = None.
Proof.
  intros Hlower Hupper Hk.
  destruct (primary df !! k) as [v|] eqn:E; [exfalso|done].
  destruct (summarise_columns_keys summarise_samples df k) as (q & Hq & Hkeys);
    [by eexists|].
  unfold keys_of in Hkeys.
  repeat (apply elem_of_cons in Hkeys as [Hkeys | Hkeys]);
    [by eapply Hlower | by eapply Hupper | by subst | by apply elem_of_nil in Hkeys].
Qed.

(** C2, as amended.  For a column [p] of the table, the three numbers
    that the summariser returns for it are stored, in the order in which it
    returns them, under [p_lower], [p_upper] and [p]: the second one under
    [p_upper] and the third one under [p].  This holds when no other
    column has one of these three keys among its own. *)
Theorem summarise_columns_unpacks df p col x y z :
  df_get p df = Some col →
  summarise_samples col = (x, y, z) →
  (∀ q, q ∈ columns df → q ≠ p → ∀ k, k ∈ keys_of q → k ∉ keys_of p) →
  primary df !! (p +:+ "_lower") = Some x
  ∧ primary df !! (p +:+ "_upper") = Some y
  ∧ primary df !! p = Some z.
Proof.
  intros Hp Hsum Hclash.
  assert (p ∈ columns df) as Hin by (apply df_get_columns; by eexists).
  assert (∀ k, k ∈ keys_of p → ∀ q, q ∈ columns df → q ≠ p → k ∉ keys_of q) as Hfree.
  { intros k Hk q Hq Hne Hkq. by apply (Hclash q Hq Hne k Hkq). }
  unfold summarise_columns.
  split_and!; apply summarise_fold_keeps with p; try (by left).
  - apply Hfree. unfold keys_of. in_list.
  - intros acc. rewrite Hp. by eapply store_summary_lower.
  - apply Hfree. unfold keys_of. in_list.
  - intros acc. rewrite Hp. by eapply store_summary_upper.
  - apply Hfree. unfold keys_of. in_list.
  - intros acc. rewrite Hp. by eapply store_summary_self.
Qed.


(** C4.  Every record of the catalogue that [summarise_all_events] returns
    has as keys the published keys, [commonName] and [version], and no
    other.  [commonName] is the event name and [version] is 1; apart from
    these two, a published key has the value that was computed for it, or
    [None] when none was, and a key that was computed but is not published
    is absent. *)
Theorem summary_record_keys evs catalog name record :
  summarise_all_events summarise_samples luminosity_distance_to_redshift
                       GWOSC_KEYS evs = Ok catalog →
  catalog !! name = Some record →
  dom record = list_to_set GWOSC_KEYS ∪ {["commonName"; "version"]}
  ∧ record !! "commonName" = Some (PyStr name)
  ∧ record !! "version" = Some (PyInt 1)
  ∧ ∃ df computed,
      (name, df) ∈ evs
      ∧ derive (primary df) = Ok computed
      ∧ ∀ k, k ≠ "commonName" → k ≠ "version" →
          (k ∈ GWOSC_KEYS → computed !! k = None → record !! k = Some PyNone)
          ∧ (k ∈ GWOSC_KEYS → ∀ v, computed !! k = Some v →
             record !! k = Some (PyFloat v))
          ∧ (k ∉ GWOSC_KEYS → record !! k = None).
Proof.
  intros Hrun Hrec. unfold summarise_all_events in Hrun.
  destruct (summarise_all_events_entries _ _ _ _ _ _ _ _ Hrun Hrec)
    as [Hempty | (df & computed & Hin & Hd & ->)].
  { by rewrite lookup_empty in Hempty. }
  split_and!.
  - apply record_dom.
  - by rewrite record_lookup, decide_True.
  - by rewrite record_lookup, decide_False, decide_True.
  - exists df, computed. split_and!; [done..|].
    intros k Hname Hversion. rewrite record_lookup.
    rewrite !decide_False by done. unfold dict_get.
    split_and!.
    + intros Hk Hnone. by rewrite decide_True, Hnone.
    + intros Hk v Hv. by rewrite decide_True, Hv.
    + intros Hk. by rewrite decide_False.
Qed.

Lemma convert_cases l h df :
  h !! l = Some df →
  (∃ m1 m2 ra dec,
     convert_df_to_gwosc_df l h
     = (Ok (length h), h ++ [df_update (converted_columns m1 m2 ra dec) df]))
  ∨ (∃ k, (convert_df_to_gwosc_df l h).1 = Err (KeyError k)).
Proof.
  intros Hl.
  destruct (df_get "m1_detector_frame_Msun" df) as [m1|] eqn:Hm1;
    [destruct (df_get "m2_detector_frame_Msun" df) as [m2|] eqn:Hm2;
     [destruct (df_get "right_ascension" df) as [ra|] eqn:Hra;
      [destruct (df_get "declination" df) as [dec|] eqn:Hdec|]|]|].
  { left. exists m1, m2, ra, dec. by apply convert_run. }
  all: right; eexists;
    unfold convert_df_to_gwosc_df; rewrite bind_eq, (copy_eq l h df Hl);
    assert (length h < length (h ++ [df])) by (rewrite length_app; simpl; lia);
    rewrite (store_focus (length h) (h ++ [df]) df) by apply list_lookup_middle, eq_refl;
    repeat (run_item; rewrite ?Hm1, ?Hm2, ?Hra, ?Hdec);
    reflexivity.
Qed.

Lemma df_update_columns new df c :
  c ∈ columns (df_update new df) → c ∈ new.*1 ∨ c ∈ columns df.
Proof.
  intros Hc%df_get_columns.
  destruct (decide (c ∈ new.*1)) as [?|Hnotin]; [by left|right].
  rewrite assigned_other in Hc by done. by apply df_get_columns.
Qed.

Lemma derive_no_distance summary :
  summary !! "luminosity_distance_lower" = None →
  derive summary = Err (KeyError "luminosity_distance_lower").
Proof.
  intros Hnone.
  assert (derive_position luminosity_distance_to_redshift summary "_lower"
          = Err (KeyError "luminosity_distance_lower")) as Hpos.
  { unfold derive_position, dict_getitem.
    change ("luminosity_distance" +:+ "_lower") with "luminosity_distance_lower".
    by rewrite Hnone. }
  unfold derive_secondary, POSITIONS. cbn [for_fold]. by rewrite Hpos.
Qed.

(** C9.  [summarise_event_df] returns only if the summary of the columns
    has the fifteen entries that its second loop reads (the five keys, at
    the three positions).  On a table without a [chirp_mass] or without a
    [total_mass] column it raises [KeyError], and so it does on the table
    that [convert_df_to_gwosc_df] makes of such a table; on the conversion
    of a table with just the columns of [SEARCH_PARAMS], the key of the error
    is [luminosity_distance_lower]. *)
Theorem summarise_event_df_needs_inputs df :
  (∀ record, summarise_df df = Ok record →
             ∀ k, k ∈ SECONDARY_INPUTS → is_Some (primary df !! k))
  ∧ ("chirp_mass" ∉ columns df ∨ "total_mass" ∉ columns df →
     ∃ k, summarise_df df = Err (KeyError k)
          ∧ k ∈ SECONDARY_INPUTS ∧ primary df !! k = None)
  ∧ (∀ h l l' h' converted,
       h !! l = Some df →
       "chirp_mass" ∉ columns df ∨ "total_mass" ∉ columns df →
       convert_df_to_gwosc_df l h = (Ok l', h') →
       h' !! l' = Some converted →
       ∃ k, summarise_df converted = Err (KeyError k))
  ∧ (∀ h l,
       h !! l = Some df →
       columns df = SEARCH_PARAMS →
       ∃ converted,
         convert_df_to_gwosc_df l h = (Ok (length h), h ++ [converted])
         ∧ summarise_df converted = Err (KeyError "luminosity_distance_lower")).
Proof.
  assert (∀ df', "chirp_mass" ∉ columns df' ∨ "total_mass" ∉ columns df' →
                 ∃ k, summarise_df df' = Err (KeyError k)
                      ∧ k ∈ SECONDARY_INPUTS ∧ primary df' !! k = None) as Hfails.
  { intros df' Hno.
    assert (∃ k, k ∈ SECONDARY_INPUTS ∧ primary df' !! k = None) as (k & Hk & Hnone).
    { destruct Hno as [Hno|Hno].
      - exists "chirp_mass". split; [unfold SECONDARY_INPUTS; in_list|].
        apply primary_own_column; [| |done]; intros q Heq; no_such_prefix Heq q.
      - exists "total_mass". split; [unfold SECONDARY_INPUTS; in_list|].
        apply primary_own_column; [| |done]; intros q Heq; no_such_prefix Heq q. }
    destruct (derive_secondary_missing luminosity_distance_to_redshift (primary df') k Hk Hnone)
      as (k' & Hk' & Hnone' & Hrun).
    exists k'. by rewrite summarise_event_df_eq, Hrun. }
  split_and!.
  - intros record. rewrite summarise_event_df_eq. intros Hrun k Hk.
    destruct (derive (primary df)) as [computed|e] eqn:Hd; [|discriminate Hrun].
    by eapply derive_secondary_inputs.
  - apply Hfails.
  - intros h l l' h' converted Hl Hno Hrun Hl'.
    destruct (convert_cases l h df Hl) as [(m1 & m2 & ra & dec & Hok) | (k & Herr)];
      [|rewrite Hrun in Herr; discriminate Herr].
    rewrite Hok in Hrun. injection Hrun as <- <-.
    rewrite list_lookup_middle in Hl' by done. injection Hl' as <-.
    destruct (Hfails (df_update (converted_columns m1 m2 ra dec) df)) as (k & Hk & _).
    + destruct Hno as [Hno|Hno]; [left|right];
        intros [Hnew|Hold]%df_update_columns; try done;
        unfold converted_columns in Hnew; cbn [fmap list_fmap fst] in Hnew;
        repeat (apply elem_of_cons in Hnew as [Hnew | Hnew]; [discriminate Hnew|]);
        by apply elem_of_nil in Hnew.
    + by exists k.
  - intros h l Hl Hcols.
    assert (∀ c, c ∈ SEARCH_PARAMS → has_column c df) as Hhas.
    { intros c Hc. apply df_get_columns. by rewrite Hcols. }
    destruct (source_columns df Hhas)
      as (dl & m1 & a1 & t1 & m2 & a2 & t2 & ra & dec & Hdl & Hm1 & Ha1 & Ht1
          & Hm2 & Ha2 & Ht2 & Hra & Hdec).
    eexists. split; [by apply convert_run|].
    rewrite summarise_event_df_eq, derive_no_distance; [done|].
    destruct (primary _ !! "luminosity_distance_lower") eqn:E; [exfalso|done].
    destruct (summarise_columns_keys summarise_samples _ _ (mk_is_Some _ _ E))
      as (q & Hq & Hkeys).
    apply df_update_columns in Hq. rewrite Hcols in Hq.
    unfold converted_columns, SEARCH_PARAMS in Hq. cbn [fmap list_fmap fst] in Hq.
    unfold keys_of in Hkeys.
    destruct Hq as [Hq|Hq];
      repeat (apply elem_of_cons in Hq as [-> | Hq]);
      try (by apply elem_of_nil in Hq);
      repeat (apply elem_of_cons in Hkeys as [Hkeys | Hkeys]; [discriminate Hkeys|]);
      by apply elem_of_nil in Hkeys.
Qed.
End SummariserClaims.

(** ** The summariser on the concrete tables *)

(** A key is not in a list of literals. *)
Ltac not_in_list :=
  let Hin := fresh "Hin" in
  intros Hin;
  repeat (apply elem_of_cons in Hin as [Hin | Hin]; [discriminate Hin|]);
  by apply elem_of_nil in Hin.

Example masses_table_record :
  summarise_event_df lower_upper_median hubble_redshift demo_keys masses_table
  = Ok masses_record.
Proof. vm_compute. reflexivity. Qed.

Example masses_table_catalog :
  summarise_all_events lower_upper_median hubble_redshift demo_keys
                       [("GW150914", masses_table)] = Ok masses_catalog
  ∧ masses_catalog !! "GW150914"
    = Some (<["commonName" := PyStr "GW150914"]> masses_record).
Proof. split; vm_compute; reflexivity. Qed.

(** The published record of [masses_table]: the source-frame mass is the
    summarised mass over one plus the redshift of the summarised distance. *)
Example masses_record_entries :
  masses_record !! "redshift" = Some (PyFloat (hubble_redshift 200))
  ∧ masses_record !! "mass_1_source"
    = Some (PyFloat (32 / (1 + hubble_redshift 200))%Q)
  ∧ masses_record !! "far" = Some PyNone
  ∧ masses_record !! "ra" = None
  ∧ masses_record !! "version" = Some (PyInt 1).
Proof. vm_compute. by split_and!. Qed.

Lemma summarise_columns_unpacks_witness :
  summarise_columns lower_upper_median masses_table !! ("mass_1" +:+ "_lower") = Some 30%Q
  ∧ summarise_columns lower_upper_median masses_table !! ("mass_1" +:+ "_upper") = Some 34%Q
  ∧ summarise_columns lower_upper_median masses_table !! "mass_1" = Some 32%Q.
Proof.
  apply (summarise_columns_unpacks lower_upper_median masses_table "mass_1"
           [30; 32; 34]%Q).
  - reflexivity.
  - vm_compute. reflexivity.
  - intros q Hq Hne k Hk. vm_compute in Hq.
    repeat (apply elem_of_cons in Hq as [-> | Hq]);
      try (by apply elem_of_nil in Hq); try done;
      vm_compute in Hk;
      repeat (apply elem_of_cons in Hk as [-> | Hk]);
      try (by apply elem_of_nil in Hk);
      vm_compute; not_in_list.
Defined.

(** C2, as stated, fails: with a summariser that returns (lower, median,
    upper), the median of the column [mass_1] of [masses_table] is stored
    under [mass_1_upper] and the upper value under [mass_1]. *)
Lemma summarise_columns_swaps_median_and_upper :
  ¬ (∀ (summarise_samples : list Q → Q * Q * Q) (df : DataFrame Q) p col
       lower median upper,
       df_get p df = Some col →
       summarise_samples col = (lower, median, upper) →
       summarise_columns summarise_samples df !! (p +:+ "_lower") = Some lower
       ∧ summarise_columns summarise_samples df !! p = Some median
       ∧ summarise_columns summarise_samples df !! (p +:+ "_upper") = Some upper).
Proof.
  intros Hclaim.
  destruct (Hclaim lower_median_upper masses_table "mass_1" [30; 32; 34]%Q 30%Q 32%Q 34%Q)
    as (_ & Hmedian & _).
  - reflexivity.
  - vm_compute. reflexivity.
  - vm_compute in Hmedian. discriminate Hmedian.
Qed.


Lemma summary_record_keys_witness :
  let record := <["commonName" := PyStr "GW150914"]> masses_record in
  dom record = list_to_set demo_keys ∪ {["commonName"; "version"]}
  ∧ record !! "commonName" = Some (PyStr "GW150914")
  ∧ record !! "version" = Some (PyInt 1)
  ∧ ∃ df computed,
      ("GW150914", df) ∈ [("GW150914", masses_table)]
      ∧ derive_secondary hubble_redshift (summarise_columns lower_upper_median df)
        = Ok computed
      ∧ ∀ k, k ≠ "commonName" → k ≠ "version" →
          (k ∈ demo_keys → computed !! k = None → record !! k = Some PyNone)
          ∧ (k ∈ demo_keys → ∀ v, computed !! k = Some v →
             record !! k = Some (PyFloat v))
          ∧ (k ∉ demo_keys → record !! k = None).
Proof.
  apply (summary_record_keys lower_upper_median hubble_redshift demo_keys
           [("GW150914", masses_table)] masses_catalog "GW150914").
  - apply masses_table_catalog.
  - apply masses_table_catalog.
Defined.

Lemma summarise_event_df_needs_inputs_witness :
  (∀ k, k ∈ SECONDARY_INPUTS →
        is_Some (summarise_columns lower_upper_median masses_table !! k))
  ∧ (∃ k, summarise_event_df lower_upper_median hubble_redshift demo_keys raw_table
          = Err (KeyError k)
          ∧ k ∈ SECONDARY_INPUTS
          ∧ summarise_columns lower_upper_median raw_table !! k = None)
  ∧ (∃ converted,
       convert_df_to_gwosc_df 0 [raw_table] = (Ok 1, [raw_table] ++ [converted])
       ∧ summarise_event_df lower_upper_median hubble_redshift demo_keys converted
         = Err (KeyError "luminosity_distance_lower")).
Proof.
  split_and!.
  - apply (proj1 (summarise_event_df_needs_inputs lower_upper_median hubble_redshift
                    demo_keys masses_table) masses_record).
    apply masses_table_record.
  - apply (proj1 (proj2 (summarise_event_df_needs_inputs lower_upper_median
                           hubble_redshift demo_keys raw_table))).
    left. vm_compute. not_in_list.
  - apply (proj2 (proj2 (proj2 (summarise_event_df_needs_inputs lower_upper_median
                                  hubble_redshift demo_keys raw_table))) [raw_table] 0).
    + reflexivity.
    + reflexivity.
Defined.

(** ** Event names *)

Lemma append_assoc (a b c : string) : (a +:+ b) +:+ c = a +:+ b +:+ c.
Proof.
  induction a as [|x a IH]; [done|].
  rewrite !append_String. by rewrite IH.
Qed.

Lemma append_nil_r (a : string) : a +:+ "" = a.
Proof.
  induction a as [|x a IH]; [done|].
  rewrite append_String. by rewrite IH.
Qed.

Lemma prefix_append sep s : String.prefix sep s = true ↔ ∃ r, s = sep +:+ r.
Proof.
  revert s. induction sep as [|a sep IH]; intros [|b s]; simpl.
  - split; [by exists ""|done].
  - split; [by eexists|done].
  - split; [done|]. intros [r Hr]. rewrite append_String in Hr. discriminate Hr.
  - destruct (ascii_dec a b) as [->|Hne].
    + rewrite IH. split; intros [r Hr]; exists r.
      * rewrite append_String. by rewrite Hr.
      * rewrite append_String in Hr. by injection Hr.
    + split; [done|]. intros [r Hr]. rewrite append_String in Hr.
      injection Hr as -> _. by destruct Hne.
Qed.

Lemma has_at_0 sep s : has_at sep s 0 ↔ String.prefix sep s = true.
Proof.
  rewrite prefix_append. split.
  - intros (p & r & -> & Hp). destruct p; [|discriminate Hp]. by exists r.
  - intros [r ->]. by exists "", r.
Qed.

Lemma has_at_S sep c s n : has_at sep (String c s) (S n) ↔ has_at sep s n.
Proof.
  split.
  - intros (p & r & Hs & Hp). destruct p as [|x p]; [discriminate Hp|].
    rewrite append_String in Hs. injection Hs as -> ->.
    injection Hp as Hp. by exists p, r.
  - intros (p & r & -> & Hp). exists (String c p), r.
    rewrite append_String. simpl. by rewrite Hp.
Qed.

Lemma has_at_nil sep n : has_at sep "" n → n = 0.
Proof.
  intros (p & r & Hs & Hp). destruct p; [done|].
  rewrite append_String in Hs. discriminate Hs.
Qed.

(** [split_head] cuts at the first occurrence of the separator. *)
Lemma split_head_cut sep s : cut_at_first sep s (split_head sep s).
Proof.
  induction s as [|c s IH].
  - unfold split_head. destruct (String.prefix sep "") eqn:Hpre.
    + left. split.
      * apply prefix_append in Hpre as [r Hr]. by exists r.
      * intros n _. simpl. lia.
    + right. split; [done|]. intros n Hn.
      pose proof (has_at_nil sep n Hn) as ->.
      apply has_at_0 in Hn. congruence.
  - cbn [split_head]. destruct (String.prefix sep (String c s)) eqn:Hpre.
    + left. split.
      * apply prefix_append in Hpre as [r Hr]. by exists r.
      * intros n _. simpl. lia.
    + assert (∀ n, has_at sep (String c s) n → ∃ n', n = S n' ∧ has_at sep s n')
        as Htail.
      { intros [|n'] Hn.
        - apply has_at_0 in Hn. congruence.
        - exists n'. split; [done|]. by apply has_at_S in Hn. }
      destruct IH as [[[r Hr] Hmin] | [Hall Hnone]].
      * left. split.
        -- exists r. rewrite append_String. by rewrite <- Hr.
        -- intros n Hn. destruct (Htail n Hn) as (n' & -> & Hn').
           simpl. apply Hmin in Hn'. lia.
      * right. split; [by rewrite Hall|].
        intros n Hn. destruct (Htail n Hn) as (n' & -> & Hn'). by apply (Hnone n').
Qed.

Lemma has_char_append c a b : has_char c (a +:+ b) = has_char c a || has_char c b.
Proof.
  induction a as [|x a IH]; [done|].
  rewrite append_String. simpl. by rewrite IH, orb_assoc.
Qed.

Lemma no_slash s : has_char "/" s = false → ∀ n, ¬ has_at "/" s n.
Proof.
  intros Hs n (p & r & -> & _).
  rewrite !has_char_append in Hs. simpl in Hs.
  by rewrite orb_true_r in Hs.
Qed.

Lemma basename_from_last acc path :
  has_char "/" acc = false →
  has_char "/" (basename_from acc path) = false
  ∧ (acc +:+ path = basename_from acc path
     ∨ ∃ d, acc +:+ path = d +:+ "/" +:+ basename_from acc path).
Proof.
  revert acc. induction path as [|c path IH]; intros acc Hacc; cbn [basename_from].
  - split; [done|]. left. apply append_nil_r.
  - destruct (Ascii.eqb c "/") eqn:Hc.
    + apply Ascii.eqb_eq in Hc as ->.
      destruct (IH "" eq_refl) as [Hb Hsplit]. split; [done|]. right.
      rewrite append_nil in Hsplit. destruct Hsplit as [<- | [d Hd]].
      * by exists acc.
      * exists (acc +:+ "/" +:+ d). rewrite Hd at 1.
        by rewrite !append_assoc.
    + destruct (IH (acc +:+ String c "")) as [Hb Hsplit].
      { rewrite has_char_append. simpl. by rewrite Hacc, Hc. }
      split; [done|].
      by rewrite append_assoc in Hsplit.
Qed.

Lemma basename_last path : last_component path (basename path).
Proof.
  destruct (basename_from_last "" path eq_refl) as [Hb Hsplit].
  split; [by apply no_slash|]. by rewrite append_nil in Hsplit.
Qed.

(** C8.  The event name of a file is a function of its path: the last
    component of the path, cut at the first occurrence of [.h], and what
    remains cut at the first underscore. *)
Theorem event_name_of_file_cuts file :
  ∃ base stem,
    last_component file base
    ∧ cut_at_first ".h" base stem
    ∧ cut_at_first "_" stem (event_name_of_file file).
Proof.
  exists (basename file), (split_head ".h" (basename file)).
  split_and!; [apply basename_last | apply split_head_cut..].
Qed.

Example event_name_GW150914 :
  event_name_of_file "../data/lvc_search/gwtc1/GW150914_GWTC-1.hdf5" = "GW150914".
Proof. reflexivity. Qed.

Example event_name_h5 : event_name_of_file "GW170817.h5" = "GW170817".
Proof. reflexivity. Qed.

(** * Further facts *)

(** ** More on the parser *)

Section ParserMore.
Context {F : Type} `{Float64 F}.
Variable get_redshift_from_dl : list F → list F.
Variable add_aligned_component_spins : loc → M F loc.
Variable sort_columns : loc → M F loc.
Implicit Types (h : heap F) (df : DataFrame F) (l : loc).

#[local] Abbreviation standardise :=
  (standardise_samples get_redshift_from_dl add_aligned_component_spins sort_columns).

(** The columns of a table with all of [READ_ORDER]. *)
Lemma read_columns df :
  (∀ c, c ∈ READ_ORDER → has_column c df) →
  ∃ dl m1 a1 t1 m2 a2 t2 ra dec,
    df_get "luminosity_distance_Mpc" df = Some dl
    ∧ df_get "m1_detector_frame_Msun" df = Some m1
    ∧ df_get "spin1" df = Some a1
    ∧ df_get "costilt1" df = Some t1
    ∧ df_get "m2_detector_frame_Msun" df = Some m2
    ∧ df_get "spin2" df = Some a2
    ∧ df_get "costilt2" df = Some t2
    ∧ df_get "right_ascension" df = Some ra
    ∧ df_get "declination" df = Some dec.
Proof.
  intros Hcols.
  assert (∀ c, c ∈ READ_ORDER → ∃ s, df_get c df = Some s) as Hget
    by (intros c Hc; apply (Hcols c Hc)).
  destruct (Hget "luminosity_distance_Mpc") as [dl ?]; [in_list|].
  destruct (Hget "m1_detector_frame_Msun") as [m1 ?]; [in_list|].
  destruct (Hget "spin1") as [a1 ?]; [in_list|].
  destruct (Hget "costilt1") as [t1 ?]; [in_list|].
  destruct (Hget "m2_detector_frame_Msun") as [m2 ?]; [in_list|].
  destruct (Hget "spin2") as [a2 ?]; [in_list|].
  destruct (Hget "costilt2") as [t2 ?]; [in_list|].
  destruct (Hget "right_ascension") as [ra ?]; [in_list|].
  destruct (Hget "declination") as [dec ?]; [in_list|].
  by exists dl, m1, a1, t1, m2, a2, t2, ra, dec.
Qed.

Lemma not_defaulted c :
  c ∈ ["luminosity_distance"; "redshift"; "mass_1_source"; "mass_2_source";
       "ra"; "dec"; "mass_ratio"] → c ∉ DEFAULTED.
Proof.
  intros Hc Hd. unfold DEFAULTED in Hd.
  repeat (apply elem_of_cons in Hd as [-> | Hd]);
    try (by apply elem_of_nil in Hd);
    repeat (apply elem_of_cons in Hc as [Hc | Hc]; [discriminate Hc|]);
    by apply elem_of_nil in Hc.
Qed.

(** [standardise_samples] returns exactly when the table has the nine source
    columns that it reads; [costheta_jn], the tenth key of [SEARCH_PARAMS],
    is not needed. *)
Theorem standardise_samples_returns_iff l h df :
  keeps_columns add_aligned_component_spins →
  keeps_columns sort_columns →
  h !! l = Some df →
  (∃ l' h', standardise l h = (Ok l', h'))
  ↔ ∀ c, c ∈ READ_ORDER → has_column c df.
Proof.
  intros Hadd Hsort Hl. split.
  - intros (l' & h' & Hrun) c Hc.
    destruct (first_missing df) as [c'|] eqn:Hfm.
    + pose proof (missing_column_raises get_redshift_from_dl
                    add_aligned_component_spins sort_columns l h df c' Hl Hfm) as Herr.
      rewrite Hrun in Herr. discriminate Herr.
    + by apply first_missing_None.
  - intros Hcols.
    destruct (read_columns df Hcols)
      as (dl & m1 & a1 & t1 & m2 & a2 & t2 & ra & dec & Hdl & Hm1 & Ha1 & Ht1
          & Hm2 & Ha2 & Ht2 & Hra & Hdec).
    destruct (standardise_samples_ok get_redshift_from_dl add_aligned_component_spins
                sort_columns l h df dl m1 a1 t1 m2 a2 t2 ra dec)
      as (l' & h' & mid & out & Hrun & _); try done.
    by exists l', h'.
Qed.

(** The distance, redshift, source-frame mass and sky position columns of
    the table returned. *)
Theorem standardise_samples_derived_columns l h df :
  keeps_columns add_aligned_component_spins →
  keeps_columns sort_columns →
  h !! l = Some df →
  (∀ c, c ∈ READ_ORDER → has_column c df) →
  ∃ l' h' out dl m1 m2,
    standardise l h = (Ok l', h')
    ∧ h' !! l' = Some out
    ∧ df_get "luminosity_distance_Mpc" df = Some dl
    ∧ df_get "m1_detector_frame_Msun" df = Some m1
    ∧ df_get "m2_detector_frame_Msun" df = Some m2
    ∧ df_get "luminosity_distance" out = Some dl
    ∧ df_get "redshift" out = Some (get_redshift_from_dl dl)
    ∧ df_get "mass_1_source" out
      = Some (zip_with fdiv m1 (fadd (of_int 1) <$> get_redshift_from_dl dl))
    ∧ df_get "mass_2_source" out
      = Some (zip_with fdiv m2 (fadd (of_int 1) <$> get_redshift_from_dl dl))
    ∧ df_get "ra" out = df_get "right_ascension" df
    ∧ df_get "dec" out = df_get "declination" df.
Proof.
  intros Hadd Hsort Hl Hcols.
  destruct (read_columns df Hcols)
    as (dl & m1 & a1 & t1 & m2 & a2 & t2 & ra & dec & Hdl & Hm1 & Ha1 & Ht1
        & Hm2 & Ha2 & Ht2 & Hra & Hdec).
  destruct (standardise_samples_ok get_redshift_from_dl add_aligned_component_spins
              sort_columns l h df dl m1 a1 t1 m2 a2 t2 ra dec)
    as (l' & h' & mid & out & Hrun & Hl' & Hmid & Hout); try done.
  exists l', h', out, dl, m1, m2. rewrite Hra, Hdec.
  split_and!; [done..| | | | | |];
    (eapply (returned_column _ mid); [done | done | | get_assigned; reflexivity]);
    apply not_defaulted; in_list.
Qed.


(** A failing call is not undone: when the distance column is there and a
    later source column is not, the caller's table keeps the columns that
    were assigned before the exception; when the distance column itself is
    absent, the store is as it was. *)
Theorem standardise_samples_failure_keeps_assignments l h df c :
  h !! l = Some df →
  first_missing df = Some c →
  (standardise l h).1 = Err (KeyError c)
  ∧ (c = "luminosity_distance_Mpc" → (standardise l h).2 = h)
  ∧ (c ≠ "luminosity_distance_Mpc" →
     ∃ dl df',
       (standardise l h).2 = <[l := df']> h
       ∧ df_get "luminosity_distance_Mpc" df = Some dl
       ∧ df_get "luminosity_distance" df' = Some dl
       ∧ df_get "redshift" df' = Some (get_redshift_from_dl dl)
       ∧ df_get c df' = None).
Proof.
  intros Hl Hfm.
  assert (l < length h) as Hlt by by eapply lookup_lt_Some.
  split; [by apply missing_column_raises with df|].
  destruct (first_missing_Some df c Hfm) as [_ Hnone].
  unfold standardise_samples, sort_parameters, standardise_samples_undecorated.
  rewrite !bind_eq.
  pose proof (standardise_columns_missing get_redshift_from_dl l h df c Hl Hfm) as Herr.
  destruct (standardise_columns get_redshift_from_dl l h) as [[[]|e] hf] eqn:Hrun;
    simpl in Herr; [discriminate Herr|]. injection Herr as ->.
  cbn [snd].
  revert Hrun. rewrite (store_focus l h df Hl) at 1.
  unfold first_missing, READ_ORDER in Hfm. cbn [List.find] in Hfm.
  unfold standardise_columns. cbn [for_each].
  unfold standardise_component. name_strings.
  destruct (df_get "luminosity_distance_Mpc" df) as [dl|] eqn:Hdl.
  - rewrite bool_decide_eq_false_2 in Hfm by done.
    repeat (run_item; rewrite ?Hdl).
    intros Hrun. split.
    { intros ->. congruence. }
    intros _. exists dl.
    revert Hrun.
    repeat (repeat match goal with
                   | E : df_get ?c df = _ |- context [df_get ?c df] => rewrite E
                   end;
            first
              [ match goal with
                | |- context [df_get ?c df] =>
                    destruct (df_get c df) eqn:?;
                    [ rewrite bool_decide_eq_false_2 in Hfm by done
                    | rewrite bool_decide_eq_true_2 in Hfm by done;
                      injection Hfm as <-;
                      intros [= <-]; eexists; split_and!;
                      [ reflexivity | reflexivity
                      | by rewrite ?df_get_set
                      | by rewrite ?df_get_set
                      | by rewrite ?df_get_set ] ]
                end
              | run_item ]).
    discriminate Hfm.
  - rewrite bool_decide_eq_true_2 in Hfm by done. injection Hfm as <-.
    run_item. rewrite Hdl. intros [= <-]. split; [|done].
    intros _. by rewrite <- store_focus.
Qed.

Lemma df_set_id c (s : list F) df : df_get c df = Some s → df_set c s df = df.
Proof.
  induction df as [|[k v] rest IH]; simpl; [done|].
  destruct (String.eqb k c) eqn:E.
  - by intros [= ->].
  - intros Hget. by rewrite IH.
Qed.

Lemma df_update_id (new : list (string * list F)) df :
  (∀ c s, (c, s) ∈ new → df_get c df = Some s) → df_update new df = df.
Proof.
  unfold df_update. induction new as [|[c s] new IH]; intros Hnew; [done|].
  cbn [foldl]. rewrite df_set_id by (apply Hnew; left).
  apply IH. intros c' s' Hin. apply Hnew. by right.
Qed.

(** Running the column assignments of [standardise_samples] again on the
    table they produced changes nothing. *)
Theorem standardise_columns_idempotent l h h1 :
  standardise_columns get_redshift_from_dl l h = (Ok tt, h1) →
  standardise_columns get_redshift_from_dl l h1 = (Ok tt, h1).
Proof.
  intros Hrun.
  destruct (h !! l) as [df|] eqn:Hl; last first.
  { unfold standardise_columns in Hrun. rewrite bind_eq in Hrun.
    unfold getitem in Hrun. rewrite Hl in Hrun. discriminate Hrun. }
  assert (l < length h) as Hlt by by eapply lookup_lt_Some.
  destruct (first_missing df) as [c|] eqn:Hfm.
  { pose proof (standardise_columns_missing get_redshift_from_dl l h df c Hl Hfm) as Herr.
    rewrite Hrun in Herr. discriminate Herr. }
  destruct (read_columns df (λ c, first_missing_None df c Hfm))
    as (dl & m1 & a1 & t1 & m2 & a2 & t2 & ra & dec & Hdl & Hm1 & Ha1 & Ht1
        & Hm2 & Ha2 & Ht2 & Hra & Hdec).
  rewrite (standardise_columns_ok get_redshift_from_dl l h df
             dl m1 a1 t1 m2 a2 t2 ra dec) in Hrun by done.
  injection Hrun as <-.
  set (df1 := df_update (assigned_columns get_redshift_from_dl
                           dl m1 a1 t1 m2 a2 t2 ra dec) df).
  assert (<[l := df1]> h !! l = Some df1) as Hl1 by by apply list_lookup_insert_eq.
  rewrite (standardise_columns_ok get_redshift_from_dl l _ df1
             dl m1 a1 t1 m2 a2 t2 ra dec Hl1);
    try (subst df1; get_assigned; done).
  f_equal. rewrite list_insert_insert_eq. f_equal.
  apply df_update_id. intros c s Hin. unfold assigned_columns in Hin.
  repeat (apply elem_of_cons in Hin as [[= -> ->] | Hin]);
    try (by apply elem_of_nil in Hin);
    subst df1; get_assigned; reflexivity.
Qed.

(** [convert_df_to_gwosc_df] on a table with the four columns it reads: the
    copy has the detector-frame masses as [mass_1] and [mass_2], their ratio,
    the sky position as [ra] and [dec], and every other column of the table
    as it is. *)
Theorem convert_df_to_gwosc_df_columns l h df :
  h !! l = Some df →
  (∀ c, c ∈ CONVERT_READS → has_column c df) →
  ∃ converted m1 m2,
    convert_df_to_gwosc_df l h = (Ok (length h), h ++ [converted])
    ∧ df_get "m1_detector_frame_Msun" df = Some m1
    ∧ df_get "m2_detector_frame_Msun" df = Some m2
    ∧ df_get "mass_1" converted = Some m1
    ∧ df_get "mass_2" converted = Some m2
    ∧ df_get "mass_ratio" converted = Some (zip_with fdiv m2 m1)
    ∧ df_get "ra" converted = df_get "right_ascension" df
    ∧ df_get "dec" converted = df_get "declination" df
    ∧ ∀ c, c ∉ ["mass_1"; "mass_2"; "mass_ratio"; "ra"; "dec"] →
           df_get c converted = df_get c df.
Proof.
  intros Hl Hcols.
  destruct (Hcols "m1_detector_frame_Msun") as [m1 Hm1]; [unfold CONVERT_READS; in_list|].
  destruct (Hcols "m2_detector_frame_Msun") as [m2 Hm2]; [unfold CONVERT_READS; in_list|].
  destruct (Hcols "right_ascension") as [ra Hra]; [unfold CONVERT_READS; in_list|].
  destruct (Hcols "declination") as [dec Hdec]; [unfold CONVERT_READS; in_list|].
  exists (df_update (converted_columns m1 m2 ra dec) df), m1, m2.
  rewrite Hra, Hdec.
  split_and!; [by apply convert_run | done | done | | | | | |];
    try (get_assigned; reflexivity).
  intros c Hc. by apply assigned_other.
Qed.

(** [convert_df_to_gwosc_df] on a table without one of the four columns it
    reads raises [KeyError] for the first one that is absent; the objects
    that were in the store, the table passed among them, are as they
    were. *)
Theorem convert_df_to_gwosc_df_missing l h df c :
  h !! l = Some df →
  List.find (λ c, bool_decide (df_get c df = None)) CONVERT_READS = Some c →
  (convert_df_to_gwosc_df l h).1 = Err (KeyError c)
  ∧ ∀ i, i < length h → (convert_df_to_gwosc_df l h).2 !! i = h !! i.
Proof.
  intros Hl Hfm.
  unfold CONVERT_READS in Hfm. cbn [List.find] in Hfm.
  unfold convert_df_to_gwosc_df. rewrite bind_eq, (copy_eq l h df Hl).
  assert (length h < length (h ++ [df])) by (rewrite length_app; simpl; lia).
  rewrite (store_focus (length h) (h ++ [df]) df) by apply list_lookup_middle, eq_refl.
  assert (∀ x i, i < length h → <[length h := x]> (h ++ [df]) !! i = h !! i) as Hframe.
  { intros x i Hi. rewrite list_lookup_insert_ne by lia. by apply lookup_app_l. }
  repeat (run_item;
          repeat match goal with
                 | E : df_get ?c df = _ |- context [df_get ?c df] => rewrite E
                 end;
          try match goal with
              | |- context [df_get ?c df] =>
                  destruct (df_get c df) eqn:?;
                  [ rewrite bool_decide_eq_false_2 in Hfm by done
                  | rewrite bool_decide_eq_true_2 in Hfm by done;
                    injection Hfm as <-; split; [reflexivity | apply Hframe] ]
              end).
  discriminate Hfm.
Qed.
(** The column assignments of [standardise_samples] are made in the table
    that was passed, the caller's.  On a table with the source columns they
    succeed and allocate nothing: the store they leave differs from the one
    before at the location passed only, where the table has the thirteen
    assigned columns and its other columns as before.  The call of
    [add_aligned_component_spins] that follows receives that same
    location.  (Which object the function returns is decided by that helper
    and by the decorator.) *)
Theorem standardise_columns_in_place l h df :
  h !! l = Some df →
  (∀ c, c ∈ READ_ORDER → has_column c df) →
  ∃ df1,
    standardise_columns get_redshift_from_dl l h = (Ok tt, <[l := df1]> h)
    ∧ <[l := df1]> h !! l = Some df1
    ∧ length (<[l := df1]> h) = length h
    ∧ (∀ i, i ≠ l → <[l := df1]> h !! i = h !! i)
    ∧ (∀ c, c ∈ ASSIGNED → c ∉ DEFAULTED → has_column c df1)
    ∧ (∀ c, c ∉ ASSIGNED → df_get c df1 = df_get c df)
    ∧ ((∃ c, c ∈ ASSIGNED ∧ (c ∉ DEFAULTED) ∧ (¬ has_column c df)) → df1 ≠ df)
    ∧ standardise l h
      = (out ← standardise_rest add_aligned_component_spins l; sort_columns out)
          (<[l := df1]> h).
Proof.
  intros Hl Hcols.
  assert (l < length h) as Hlt by by eapply lookup_lt_Some.
  destruct (read_columns df Hcols)
    as (dl & m1 & a1 & t1 & m2 & a2 & t2 & ra & dec & Hdl & Hm1 & Ha1 & Ht1
        & Hm2 & Ha2 & Ht2 & Hra & Hdec).
  pose proof (standardise_columns_ok get_redshift_from_dl l h df
                dl m1 a1 t1 m2 a2 t2 ra dec Hl Hdl Hm1 Ha1 Ht1 Hm2 Ha2 Ht2 Hra Hdec)
    as Hrun.
  assert (∀ c, c ∉ ASSIGNED →
               df_get c (df_update (assigned_columns get_redshift_from_dl
                                      dl m1 a1 t1 m2 a2 t2 ra dec) df)
               = df_get c df) as Hframe.
  { intros c Hc. apply assigned_other.
    intros Hin. apply Hc. unfold assigned_columns in Hin.
    cbn [fmap list_fmap fst] in Hin. unfold ASSIGNED.
    repeat (apply elem_of_cons in Hin as [-> | Hin]);
      try (by apply elem_of_nil in Hin); in_list. }
  assert (∀ c, c ∈ ASSIGNED → c ∉ DEFAULTED →
               has_column c (df_update (assigned_columns get_redshift_from_dl
                                          dl m1 a1 t1 m2 a2 t2 ra dec) df)) as Hnew.
  { intros c Hc Hd. unfold ASSIGNED in Hc.
    repeat (apply elem_of_cons in Hc as [-> | Hc]);
      try (by apply elem_of_nil in Hc);
      first [ by (eexists; get_assigned; reflexivity)
            | by (destruct Hd; unfold DEFAULTED; in_list) ]. }
  eexists. split_and!.
  - exact Hrun.
  - by apply list_lookup_insert_eq.
  - apply length_insert.
  - intros i Hi. by apply list_lookup_insert_ne.
  - done.
  - done.
  - intros (c & Hc & Hd & Hno) Heq. apply Hno. rewrite <- Heq. by apply Hnew.
  - by apply standardise_samples_split.
Qed.
End ParserMore.

(** ** More on the summariser *)

Section SummariserMore.
Context {F : Type} `{Float64 F}.
Variable summarise_samples : list F → F * F * F.
Variable luminosity_distance_to_redshift : F → F.
Variable GWOSC_KEYS : list string.
Implicit Types (df : DataFrame F) (summary computed : gmap string F).

#[local] Abbreviation summarise_df :=
  (summarise_event_df summarise_samples luminosity_distance_to_redshift GWOSC_KEYS).
#[local] Abbreviation primary := (summarise_columns summarise_samples).
#[local] Abbreviation derive := (derive_secondary luminosity_distance_to_redshift).
#[local] Abbreviation step df :=
  (λ summary param,
     match df_get param df with
     | Some col => store_summary summarise_samples summary param col
     | None => summary
     end).

Lemma store_summary_keeps summary p col k :
  is_Some (summary !! k) →
  is_Some (store_summary summarise_samples summary p col !! k).
Proof.
  intros Hk. unfold store_summary. destruct (summarise_samples col) as [[x y] z].
  rewrite !lookup_insert. repeat case_decide; first [done | by eexists].
Qed.

Lemma store_summary_writes summary p col k :
  k ∈ keys_of p → is_Some (store_summary summarise_samples summary p col !! k).
Proof.
  intros Hk. unfold store_summary. destruct (summarise_samples col) as [[x y] z].
  unfold keys_of in Hk.
  repeat (apply elem_of_cons in Hk as [-> | Hk]); try (by apply elem_of_nil in Hk);
    rewrite !lookup_insert; repeat case_decide; first [done | by eexists].
Qed.

Lemma summarise_fold_has df k ps acc :
  (∀ q, q ∈ ps → is_Some (df_get q df)) →
  is_Some (acc !! k) ∨ (∃ q, q ∈ ps ∧ k ∈ keys_of q) →
  is_Some (foldl (step df) acc ps !! k).
Proof.
  revert acc. induction ps as [|q ps IH]; intros acc Hcols Hk; cbn [foldl].
  - destruct Hk as [?|(q & ?%elem_of_nil & _)]; done.
  - destruct (Hcols q) as [col Hcol]; [by left|]. rewrite Hcol.
    apply IH; [intros q' Hq'; apply Hcols; by right|].
    destruct Hk as [Hacc | (q' & Hq' & Hkeys)].
    + left. by apply store_summary_keeps.
    + apply elem_of_cons in Hq' as [-> | Hq'].
      * left. by apply store_summary_writes.
      * right. by exists q'.
Qed.

(** The summary of the columns has exactly three keys for each column of
    the table: the column name, and the name with [_lower] and with
    [_upper]. *)
Theorem summarise_columns_has_key df k :
  is_Some (primary df !! k) ↔ ∃ q, q ∈ columns df ∧ k ∈ keys_of q.
Proof.
  split; [apply summarise_columns_keys|].
  intros Hk. unfold summarise_columns. apply summarise_fold_has; [|by right].
  intros q Hq. by apply df_get_columns.
Qed.

Lemma bare_key_column df k :
  (∀ q, q +:+ "_lower" ≠ k) → (∀ q, q +:+ "_upper" ≠ k) →
  is_Some (primary df !! k) → k ∈ columns df.
Proof.
  intros Hlower Hupper Hk.
  destruct (decide (k ∈ columns df)) as [|Hno]; [done|].
  rewrite (primary_own_column summarise_samples df k Hlower Hupper Hno) in Hk.
  by destruct Hk.
Qed.

(** [summarise_event_df] returns exactly on the tables that have the five
    columns [luminosity_distance], [mass_1], [mass_2], [chirp_mass] and
    [total_mass]; on any other table it raises [KeyError]. *)
Theorem summarise_event_df_returns_iff df :
  ((∃ record, summarise_df df = Ok record)
   ↔ ∀ p, p ∈ SUMMARY_COLUMNS → p ∈ columns df)
  ∧ ((∃ p, p ∈ SUMMARY_COLUMNS ∧ p ∉ columns df) →
     ∃ k, summarise_df df = Err (KeyError k) ∧ k ∈ SECONDARY_INPUTS).
Proof.
  assert ((∃ record, summarise_df df = Ok record)
          → ∀ p, p ∈ SUMMARY_COLUMNS → p ∈ columns df) as Honly.
  { intros [record Hrun] p Hp.
    rewrite summarise_event_df_eq in Hrun.
    destruct (derive (primary df)) as [computed|e] eqn:Hd; [|discriminate Hrun].
    assert (p ∈ SECONDARY_INPUTS) as Hin.
    { unfold SUMMARY_COLUMNS in Hp. unfold SECONDARY_INPUTS.
      repeat (apply elem_of_cons in Hp as [-> | Hp]);
        try (by apply elem_of_nil in Hp); in_list. }
    pose proof (derive_secondary_inputs _ _ _ p Hd Hin) as Hsome.
    unfold SUMMARY_COLUMNS in Hp.
    repeat (apply elem_of_cons in Hp as [-> | Hp]);
      try (by apply elem_of_nil in Hp);
      (eapply bare_key_column; [| |done]; intros q Heq; no_such_prefix Heq q). }
  assert ((∀ p, p ∈ SUMMARY_COLUMNS → p ∈ columns df)
          → ∃ record, summarise_df df = Ok record) as Hif.
  { intros Hcols. rewrite summarise_event_df_eq.
    destruct (derive_secondary_cases luminosity_distance_to_redshift (primary df))
      as [(computed & -> & _) | (k & Hk & Hnone & _)]; [by eexists|].
    exfalso. assert (is_Some (primary df !! k)) as [v Hv]; [|congruence].
    apply summarise_columns_has_key. unfold SECONDARY_INPUTS in Hk.
    repeat (apply elem_of_cons in Hk as [-> | Hk]);
      try (by apply elem_of_nil in Hk);
      first [ solve [exists "luminosity_distance"; split;
                       [apply Hcols; unfold SUMMARY_COLUMNS; in_list | vm_compute; in_list]]
            | solve [exists "mass_1"; split;
                       [apply Hcols; unfold SUMMARY_COLUMNS; in_list | vm_compute; in_list]]
            | solve [exists "mass_2"; split;
                       [apply Hcols; unfold SUMMARY_COLUMNS; in_list | vm_compute; in_list]]
            | solve [exists "chirp_mass"; split;
                       [apply Hcols; unfold SUMMARY_COLUMNS; in_list | vm_compute; in_list]]
            | solve [exists "total_mass"; split;
                       [apply Hcols; unfold SUMMARY_COLUMNS; in_list | vm_compute; in_list]] ]. }
  split; [by split|].
  intros (p & Hp & Hno). rewrite summarise_event_df_eq.
  destruct (derive_secondary_cases luminosity_distance_to_redshift (primary df))
    as [(computed & Hrun & _) | (k & Hk & _ & ->)]; [|by exists k].
  destruct Hno. apply Honly; [|done]. exists (publish GWOSC_KEYS computed).
  by rewrite summarise_event_df_eq, Hrun.
Qed.

Lemma source_frame_other pt summary key computed k :
  source_frame pt summary key = Ok computed →
  k ≠ key +:+ "_source" +:+ pt →
  computed !! k = summary !! k.
Proof.
  unfold source_frame. intros Hrun Hk.
  destruct (dict_getitem summary (key +:+ pt)) as [m|e]; [|discriminate Hrun].
  destruct (dict_getitem summary ("redshift" +:+ pt)) as [z|e]; [|discriminate Hrun].
  injection Hrun as <-. by rewrite lookup_insert_ne.
Qed.

Lemma source_frames_other pt keys summary computed k :
  for_fold (source_frame pt) summary keys = Ok computed →
  (∀ key, key ∈ keys → k ≠ key +:+ "_source" +:+ pt) →
  computed !! k = summary !! k.
Proof.
  revert summary. induction keys as [|key keys IH]; intros summary Hrun Hk.
  - by injection Hrun as <-.
  - cbn [for_fold] in Hrun.
    destruct (source_frame pt summary key) as [s1|e] eqn:Hstep; [|discriminate Hrun].
    rewrite (IH s1 Hrun); [|intros key' Hkey'; apply Hk; by right].
    apply (source_frame_other pt summary key); [done|]. apply Hk. by left.
Qed.

Lemma derive_position_other summary pt computed k :
  derive_position luminosity_distance_to_redshift summary pt = Ok computed →
  k ≠ "redshift" +:+ pt →
  (∀ key, key ∈ MASS_KEYS → k ≠ key +:+ "_source" +:+ pt) →
  computed !! k = summary !! k.
Proof.
  unfold derive_position. intros Hrun Hz Hk.
  destruct (dict_getitem summary ("luminosity_distance" +:+ pt)) as [d|e];
    [|discriminate Hrun].
  rewrite (source_frames_other _ _ _ _ _ Hrun Hk). by rewrite lookup_insert_ne.
Qed.

(** The second loop changes no entry other than the fifteen it assigns. *)
Lemma derive_secondary_other summary computed k :
  derive summary = Ok computed → k ∉ DERIVED_KEYS → computed !! k = summary !! k.
Proof.
  unfold derive_secondary, POSITIONS. cbn [for_fold]. intros Hrun Hk.
  destruct (derive_position luminosity_distance_to_redshift summary "_lower")
    as [s1|e] eqn:H1; [|discriminate Hrun].
  cbv [mbind result_bind] in Hrun.
  destruct (derive_position luminosity_distance_to_redshift s1 "_upper")
    as [s2|e] eqn:H2; [|discriminate Hrun].
  destruct (derive_position luminosity_distance_to_redshift s2 "")
    as [s3|e] eqn:H3; [|discriminate Hrun].
  injection Hrun as <-.
  assert (∀ pt, pt ∈ POSITIONS →
                k ≠ "redshift" +:+ pt
                ∧ ∀ key, key ∈ MASS_KEYS → k ≠ key +:+ "_source" +:+ pt) as Hfree.
  { intros pt Hpt. unfold POSITIONS in Hpt.
    repeat (apply elem_of_cons in Hpt as [-> | Hpt]); try (by apply elem_of_nil in Hpt);
      (split; [intros ->; apply Hk; vm_compute; in_list|]);
      intros key Hkey; unfold MASS_KEYS in Hkey;
      repeat (apply elem_of_cons in Hkey as [-> | Hkey]);
      try (by apply elem_of_nil in Hkey);
      intros ->; apply Hk; vm_compute; in_list. }
  rewrite (derive_position_other s2 "" s3 k H3); [|apply Hfree; unfold POSITIONS; in_list..].
  rewrite (derive_position_other s1 "_upper" s2 k H2); [|apply Hfree; unfold POSITIONS; in_list..].
  apply (derive_position_other summary "_lower" s1 k H1); apply Hfree; unfold POSITIONS; in_list.
Qed.

(** A published key that the second loop does not assign carries the entry
    of the summary of the columns, or [None] when the table has no column
    for it. *)
Theorem published_column_summary df record k :
  summarise_df df = Ok record →
  k ∈ GWOSC_KEYS →
  k ≠ "version" →
  k ∉ DERIVED_KEYS →
  record !! k = Some (dict_get (primary df) k)
  ∧ ((∀ q, q ∈ columns df → k ∉ keys_of q) → record !! k = Some PyNone).
Proof.
  rewrite summarise_event_df_eq. intros Hrun Hk Hversion Hderived.
  destruct (derive (primary df)) as [computed|e] eqn:Hd; [|discriminate Hrun].
  injection Hrun as <-.
  assert (publish GWOSC_KEYS computed !! k = Some (dict_get (primary df) k)) as Hpub.
  { unfold publish. rewrite lookup_insert_ne by done.
    rewrite publish_fold_lookup, decide_True by done.
    unfold dict_get. by rewrite (derive_secondary_other _ _ _ Hd Hderived). }
  split; [done|]. intros Hno. rewrite Hpub. unfold dict_get.
  destruct (primary df !! k) as [v|] eqn:Hv; [exfalso|done].
  destruct (summarise_columns_keys summarise_samples df k) as (q & Hq & Hkeys);
    [by eexists|]. by apply (Hno q).
Qed.

#[local] Abbreviation summarise_loop :=
  (for_fold (summarise_event summarise_samples luminosity_distance_to_redshift
                             GWOSC_KEYS)).

Lemma summarise_loop_ok evs acc :
  (∀ n df, (n, df) ∈ evs → ∃ record, summarise_df df = Ok record) →
  ∃ catalog, summarise_loop acc evs = Ok catalog.
Proof.
  revert acc. induction evs as [|[n df] evs IH]; intros acc Hall; [by eexists|].
  cbn [for_fold]. rewrite summarise_event_eq.
  destruct (Hall n df) as [record Hrec]; [by left|].
  rewrite summarise_event_df_eq in Hrec.
  destruct (derive (primary df)) as [computed|e]; [|discriminate Hrec].
  apply IH. intros n' df' Hin. apply (Hall n' df'). by right.
Qed.

Lemma summarise_loop_inv evs acc catalog :
  summarise_loop acc evs = Ok catalog →
  (∀ n df, (n, df) ∈ evs → ∃ record, summarise_df df = Ok record)
  ∧ dom catalog = dom acc ∪ list_to_set evs.*1.
Proof.
  revert acc. induction evs as [|[n df] evs IH]; intros acc Hrun.
  - injection Hrun as <-. split; [by intros n df ?%elem_of_nil|].
    simpl. by rewrite union_empty_r_L.
  - cbn [for_fold] in Hrun. rewrite summarise_event_eq in Hrun.
    destruct (derive (primary df)) as [computed|e] eqn:Hd; [|discriminate Hrun].
    destruct (IH _ Hrun) as [Hall Hdom]. split.
    + intros n' df' [[= -> ->] | Hin]%elem_of_cons; [|by apply (Hall n' df')].
      exists (publish GWOSC_KEYS computed). by rewrite summarise_event_df_eq, Hd.
    + rewrite Hdom, dom_insert_L. simpl.
      by rewrite (comm_L (∪) {[n]} (dom acc)), <- (assoc_L (∪)).
Qed.

Lemma summarise_loop_failure pre n df post e acc :
  (∀ n' df', (n', df') ∈ pre → ∃ record, summarise_df df' = Ok record) →
  summarise_df df = Err e →
  summarise_loop acc (pre ++ (n, df) :: post) = Err e.
Proof.
  revert acc. induction pre as [|[n' df'] pre IH]; intros acc Hpre Herr.
  - cbn [app for_fold]. rewrite summarise_event_eq.
    rewrite summarise_event_df_eq in Herr.
    destruct (derive (primary df)) as [computed|e']; [discriminate Herr|].
    by injection Herr as ->.
  - cbn [app for_fold]. rewrite summarise_event_eq.
    destruct (Hpre n' df') as [record Hrec]; [by left|].
    rewrite summarise_event_df_eq in Hrec.
    destruct (derive (primary df')) as [computed|e']; [|discriminate Hrec].
    apply IH; [|done]. intros n'' df'' Hin. apply (Hpre n'' df''). by right.
Qed.

(** [summarise_all_events] returns exactly when [summarise_event_df] returns
    for every event, and the catalogue then has one record for each event
    name: for no event, the empty catalogue. *)
Theorem summarise_all_events_returns_iff evs :
  ((∃ catalog, summarise_all_events summarise_samples luminosity_distance_to_redshift
                                    GWOSC_KEYS evs = Ok catalog)
   ↔ ∀ n df, (n, df) ∈ evs → ∃ record, summarise_df df = Ok record)
  ∧ (∀ catalog, summarise_all_events summarise_samples luminosity_distance_to_redshift
                                     GWOSC_KEYS evs = Ok catalog →
                dom catalog = list_to_set evs.*1)
  ∧ (evs = [] → summarise_all_events summarise_samples luminosity_distance_to_redshift
                                     GWOSC_KEYS evs = Ok ∅).
Proof.
  unfold summarise_all_events. split_and!.
  - split.
    + intros [catalog Hrun]. by apply (summarise_loop_inv evs ∅ catalog).
    + apply summarise_loop_ok.
  - intros catalog Hrun. destruct (summarise_loop_inv evs ∅ catalog Hrun) as [_ ->].
    by rewrite dom_empty_L, union_empty_l_L.
  - by intros ->.
Qed.

(** [summarise_all_events] stops at the first event for which
    [summarise_event_df] raises, with that exception: the events after it
    are not looked at and no catalogue is returned. *)
Theorem summarise_all_events_first_failure pre n df post e :
  (∀ n' df', (n', df') ∈ pre → ∃ record, summarise_df df' = Ok record) →
  summarise_df df = Err e →
  summarise_all_events summarise_samples luminosity_distance_to_redshift
                       GWOSC_KEYS (pre ++ (n, df) :: post) = Err e.
Proof. apply summarise_loop_failure. Qed.
End SummariserMore.

(** ** More on event names *)

Lemma split_head_prefix sep s : ∃ r, s = split_head sep s +:+ r.
Proof.
  induction s as [|c s [r IH]].
  - exists "". unfold split_head. by destruct (String.prefix sep "").
  - cbn [split_head]. destruct (String.prefix sep (String c s)).
    + by eexists.
    + exists r. rewrite append_String. by rewrite <- IH.
Qed.

Lemma has_at_append sep p r n : has_at sep p n → has_at sep (p +:+ r) n.
Proof.
  intros (a & b & -> & Ha). exists a, (b +:+ r).
  by rewrite !append_assoc.
Qed.

(** What [split_head] returns has no occurrence of the separator. *)
Lemma split_head_no_sep sep s n : sep ≠ "" → ¬ has_at sep (split_head sep s) n.
Proof.
  intros Hsep. revert n. induction s as [|c s IH]; intros n Hn.
  - assert (split_head sep "" = "") as Heq
      by (unfold split_head; by destruct (String.prefix sep "")).
    rewrite Heq in Hn. pose proof (has_at_nil sep n Hn) as ->.
    apply has_at_0, prefix_append in Hn as [r Hr].
    destruct sep; [done|]. rewrite append_String in Hr. discriminate Hr.
  - cbn [split_head] in Hn. destruct (String.prefix sep (String c s)) eqn:Hpre.
    + pose proof (has_at_nil sep n Hn) as ->.
      apply has_at_0, prefix_append in Hn as [r Hr].
      destruct sep; [done|]. rewrite append_String in Hr. discriminate Hr.
    + destruct n as [|n].
      * destruct (split_head_prefix sep s) as [r Hr].
        apply (has_at_append _ _ r) in Hn.
        rewrite append_String, <- Hr in Hn.
        apply has_at_0 in Hn. congruence.
      * apply has_at_S in Hn. by apply (IH n).
Qed.

Lemma split_head_char c s : has_char c (split_head (String c "") s) = false.
Proof.
  destruct (has_char c (split_head (String c "") s)) eqn:E; [exfalso|done].
  assert (∀ t, has_char c t = true → ∃ n, has_at (String c "") t n) as Hocc.
  { induction t as [|a t IHt]; simpl; [done|].
    destruct (Ascii.eqb a c) eqn:Ha; simpl.
    - intros _. apply Ascii.eqb_eq in Ha as ->. exists 0. by exists "", t.
    - intros [n Hn]%IHt. exists (S n). by apply has_at_S. }
  destruct (Hocc _ E) as [n Hn]. by apply split_head_no_sep in Hn.
Qed.

(** The event name is the beginning of the base name of the file, and has no
    slash, no underscore and no occurrence of [.h]. *)
Theorem event_name_of_file_clean file :
  (∃ r, basename file = event_name_of_file file +:+ r)
  ∧ has_char "/" (event_name_of_file file) = false
  ∧ has_char "_" (event_name_of_file file) = false
  ∧ ∀ n, ¬ has_at ".h" (event_name_of_file file) n.
Proof.
  unfold event_name_of_file.
  destruct (split_head_prefix ".h" (basename file)) as [r1 Hr1].
  destruct (split_head_prefix "_" (split_head ".h" (basename file))) as [r2 Hr2].
  destruct (basename_from_last "" file eq_refl) as [Hslash _].
  fold (basename file) in Hslash.
  split_and!.
  - exists (r2 +:+ r1). rewrite Hr1 at 1. rewrite Hr2 at 1. by rewrite append_assoc.
  - rewrite Hr1, Hr2, !has_char_append in Hslash.
    by destruct (has_char "/" (split_head "_" (split_head ".h" (basename file)))).
  - apply split_head_char.
  - intros n Hn. apply (has_at_append _ _ r2) in Hn. rewrite <- Hr2 in Hn.
    by apply split_head_no_sep in Hn.
Qed.

Lemma basename_from_after_slash acc d b :
  basename_from acc (d +:+ "/" +:+ b) = basename_from "" b.
Proof.
  revert acc. induction d as [|c d IH]; intros acc.
  - rewrite append_nil. by rewrite append_String, append_nil.
  - rewrite append_String. cbn [basename_from].
    destruct (Ascii.eqb c "/"); apply IH.
Qed.

Lemma basename_from_no_slash acc b :
  has_char "/" b = false → basename_from acc b = acc +:+ b.
Proof.
  revert acc. induction b as [|c b IH]; intros acc Hb; cbn [basename_from].
  - by rewrite append_nil_r.
  - simpl in Hb. apply orb_false_iff in Hb as [Hc Hb]. rewrite Hc.
    rewrite IH by done. by rewrite append_assoc.
Qed.

Lemma split_head_skip c sep name x :
  has_char c name = false →
  split_head (String c sep) (name +:+ x) = name +:+ split_head (String c sep) x.
Proof.
  induction name as [|a name IH]; intros Hname; [done|].
  simpl in Hname. apply orb_false_iff in Hname as [Ha Hname].
  rewrite !append_String. cbn [split_head String.prefix].
  destruct (ascii_dec c a) as [->|_]; [by rewrite Ascii.eqb_refl in Ha|].
  by rewrite IH.
Qed.

Lemma split_head_at_sep sep x : split_head sep (sep +:+ x) = "".
Proof.
  assert (String.prefix sep (sep +:+ x) = true) as Hpre
    by (apply prefix_append; by exists x).
  destruct (sep +:+ x); unfold split_head; fold split_head; by rewrite Hpre.
Qed.

(** A file named [name], then an underscore or [.h], then anything, in any
    directory, has the event name [name], when [name] has no slash, no dot
    and no underscore. *)
Theorem event_name_of_file_parses dir name tail rest :
  has_char "/" name = false →
  has_char "." name = false →
  has_char "_" name = false →
  tail = "_" +:+ rest ∨ tail = ".h" +:+ rest →
  has_char "/" rest = false →
  event_name_of_file (dir +:+ "/" +:+ name +:+ tail) = name
  ∧ event_name_of_file (name +:+ tail) = name.
Proof.
  intros Hslash Hdot Hunder Htail Hrest.
  assert (has_char "/" (name +:+ tail) = false) as Hbase.
  { rewrite has_char_append, Hslash. destruct Htail as [-> | ->];
      rewrite has_char_append, Hrest; reflexivity. }
  assert (split_head "_" (split_head ".h" (name +:+ tail)) = name) as Hname.
  { destruct Htail as [-> | ->].
    - rewrite (split_head_skip "." "h" name) by done.
      rewrite append_String, append_nil.
      assert (split_head ".h" (String "_" rest) = String "_" (split_head ".h" rest))
        as -> by reflexivity.
      change (String "_" (split_head ".h" rest)) with ("_" +:+ split_head ".h" rest).
      rewrite (split_head_skip "_" "" name) by done.
      by rewrite split_head_at_sep, append_nil_r.
    - rewrite (split_head_skip "." "h" name) by done.
      rewrite split_head_at_sep, append_nil_r.
      rewrite <- (append_nil_r name) at 1.
      rewrite (split_head_skip "_" "" name) by done.
      apply append_nil_r. }
  unfold event_name_of_file, basename. split.
  - rewrite basename_from_after_slash, basename_from_no_slash by done.
    by rewrite append_nil.
  - rewrite basename_from_no_slash by done. by rewrite append_nil.
Qed.

Section ItemsFacts.
Context {V : Type}.
Implicit Types (d : list (string * V)) (k : string).

Lemma items_get_set d k k' v :
  items_get k' (items_set k v d) = if String.eqb k k' then Some v else items_get k' d.
Proof.
  induction d as [|[k0 v0] rest IH]; simpl.
  - by destruct (String.eqb k k').
  - destruct (String.eqb k0 k) eqn:E0; simpl.
    + apply String.eqb_eq in E0 as ->. by destruct (String.eqb k k').
    + rewrite IH. destruct (String.eqb k0 k') eqn:E1; [|done].
      apply String.eqb_eq in E1 as ->. by rewrite String.eqb_sym, E0.
Qed.

Lemma items_get_set_ne d k k' v : k ≠ k' → items_get k' (items_set k v d) = items_get k' d.
Proof.
  intros Hne. rewrite items_get_set.
  destruct (String.eqb k k') eqn:E; [|done]. by apply String.eqb_eq in E.
Qed.

Lemma items_get_set_eq d k v : items_get k (items_set k v d) = Some v.
Proof. by rewrite items_get_set, String.eqb_refl. Qed.

Lemma items_set_keys d k v v' : items_get k d = Some v → (items_set k v' d).*1 = d.*1.
Proof.
  induction d as [|[k0 v0] rest IH]; [done|]. cbn [items_get items_set].
  destruct (String.eqb k0 k); [done|]. intros Hget.
  rewrite !fmap_cons. by rewrite IH.
Qed.

Lemma items_get_elem d k v : items_get k d = Some v → (k, v) ∈ d.
Proof.
  induction d as [|[k0 v0] rest IH]; simpl; [done|].
  destruct (String.eqb k0 k) eqn:E.
  - apply String.eqb_eq in E as ->. intros [= ->]. by left.
  - intros Hget. right. by apply IH.
Qed.

Lemma elem_items_get d k v : NoDup d.*1 → (k, v) ∈ d → items_get k d = Some v.
Proof.
  induction d as [|[k0 v0] rest IH]; simpl; intros Hnodup Hin.
  - by apply elem_of_nil in Hin.
  - apply NoDup_cons in Hnodup as [Hk0 Hnodup].
    apply elem_of_cons in Hin as [[= -> ->] | Hin].
    + by rewrite String.eqb_refl.
    + destruct (String.eqb k0 k) eqn:E; [|by apply IH].
      apply String.eqb_eq in E as ->. destruct Hk0.
      apply list_elem_of_fmap. by exists (k, v).
Qed.
End ItemsFacts.

Section CatalogFacts.
Context {F : Type} `{Float64 F}.
Variable summarise_samples : list F → F * F * F.
Variable luminosity_distance_to_redshift : F → F.
Variable GWOSC_KEYS : list string.
Implicit Types (h : heap F) (df : DataFrame F) (c : list (string * loc)).

(** [converted] is what [convert_df_to_gwosc_df] makes of [df]. *)
#[local] Abbreviation conversion df converted :=
  (∃ m1 m2 ra dec,
     df_get "m1_detector_frame_Msun" df = Some m1
     ∧ df_get "m2_detector_frame_Msun" df = Some m2
     ∧ df_get "right_ascension" df = Some ra
     ∧ df_get "declination" df = Some dec
     ∧ converted = df_update (converted_columns m1 m2 ra dec) df).

Lemma compatible_loop_ok keys c h :
  NoDup keys →
  (∀ k, k ∈ keys →
        ∃ l df, items_get k c = Some l ∧ h !! l = Some df
                ∧ ∀ col, col ∈ CONVERT_READS → has_column col df) →
  ∃ c' h',
    compatible_loop keys c h = (Ok tt, c', h')
    ∧ c'.*1 = c.*1
    ∧ (∀ i, i < length h → h' !! i = h !! i)
    ∧ (∀ k, k ∉ keys → items_get k c' = items_get k c)
    ∧ ∀ k l df, k ∈ keys → items_get k c = Some l → h !! l = Some df →
        ∃ l' converted,
          items_get k c' = Some l' ∧ length h ≤ l'
          ∧ h' !! l' = Some converted ∧ conversion df converted.
Proof.
  intros Hnodup. revert c h.
  induction keys as [|k keys IH]; intros c h Hpre.
  - exists c, h. split_and!; [done..|]. by intros k l df ?%elem_of_nil.
  - apply NoDup_cons in Hnodup as [Hk Hnodup].
    destruct (Hpre k) as (l & df & Hget & Hl & Hcols); [by left|].
    destruct (Hcols "m1_detector_frame_Msun") as [m1 Hm1]; [unfold CONVERT_READS; in_list|].
    destruct (Hcols "m2_detector_frame_Msun") as [m2 Hm2]; [unfold CONVERT_READS; in_list|].
    destruct (Hcols "right_ascension") as [ra Hra]; [unfold CONVERT_READS; in_list|].
    destruct (Hcols "declination") as [dec Hdec]; [unfold CONVERT_READS; in_list|].
    cbn [compatible_loop]. rewrite Hget, (convert_run l h df m1 m2 ra dec) by done.
    set (conv := df_update (converted_columns m1 m2 ra dec) df).
    destruct (IH Hnodup (items_set k (length h) c) (h ++ [conv]))
      as (c' & h' & Hrun & Hkeys & Hframe & Hother & Hconv).
    { intros k' Hk'. destruct (Hpre k') as (l' & df' & Hget' & Hl' & Hcols'); [by right|].
      exists l', df'. split_and!; [|by apply lookup_app_l_Some|done].
      rewrite items_get_set_ne; [done|]. by intros ->. }
    exists c', h'. split_and!.
    + done.
    + rewrite Hkeys. by eapply items_set_keys.
    + intros i Hi. rewrite Hframe by (rewrite length_app; lia). by apply lookup_app_l.
    + intros k' [Hne Hk']%not_elem_of_cons.
      rewrite Hother by done. by apply items_get_set_ne.
    + intros k' l' df' [-> | Hk']%elem_of_cons Hget' Hl'.
      * rewrite Hget in Hget'. injection Hget' as <-.
        rewrite Hl in Hl'. injection Hl' as <-.
        exists (length h), conv. split_and!.
        -- rewrite Hother by done. apply items_get_set_eq.
        -- lia.
        -- rewrite Hframe by (rewrite length_app; simpl; lia).
           by apply list_lookup_middle.
        -- by exists m1, m2, ra, dec.
      * destruct (Hconv k' l' df' Hk') as (l'' & converted & ? & Hge & ? & ?).
        -- rewrite items_get_set_ne; [done|]. by intros ->.
        -- by apply lookup_app_l_Some.
        -- exists l'', converted. split_and!; [done| |done..].
           rewrite length_app in Hge. lia.
Qed.

(** [make_events_gwosc_compatible] on a dict whose tables all have the four
    columns that the conversion reads: every name of the dict, in the same
    order, now denotes a new table, the one that [convert_df_to_gwosc_df]
    returns for the table it denoted, and the tables that were in the store
    are as they were. *)
Theorem make_events_gwosc_compatible_converts c h :
  NoDup c.*1 →
  (∀ n l, (n, l) ∈ c →
          ∃ df, h !! l = Some df ∧ ∀ col, col ∈ CONVERT_READS → has_column col df) →
  ∃ c' h',
    make_events_gwosc_compatible c h = (Ok tt, c', h')
    ∧ c'.*1 = c.*1
    ∧ (∀ i, i < length h → h' !! i = h !! i)
    ∧ ∀ n l, (n, l) ∈ c →
        ∃ l' converted,
          (n, l') ∈ c' ∧ length h ≤ l'
          ∧ h' !! l' = Some converted
          ∧ convert_df_to_gwosc_df l h = (Ok (length h), h ++ [converted]).
Proof.
  intros Hnodup Hpre. unfold make_events_gwosc_compatible.
  destruct (compatible_loop_ok c.*1 c h Hnodup)
    as (c' & h' & Hrun & Hkeys & Hframe & _ & Hconv).
  { intros k [[k' l] [-> Hin]]%list_elem_of_fmap.
    destruct (Hpre k' l Hin) as (df & Hl & Hcols).
    exists l, df. split_and!; [|done..]. by apply elem_items_get. }
  exists c', h'. split_and!; [done..|].
  intros n l Hin. destruct (Hpre n l Hin) as (df & Hl & _).
  destruct (Hconv n l df) as (l' & converted & Hget & Hge & Hl' & Hc);
    [apply list_elem_of_fmap; by exists (n, l) | by apply elem_items_get | done |].
  exists l', converted. split_and!; [by apply items_get_elem | done | done |].
  destruct Hc as (m1 & m2 & ra & dec & ? & ? & ? & ? & ->). by apply convert_run.
Qed.

#[local] Abbreviation summarise_df :=
  (summarise_event_df summarise_samples luminosity_distance_to_redshift GWOSC_KEYS).

Lemma event_tables_total c h :
  (∀ n l, (n, l) ∈ c → is_Some (h !! l)) → ∃ tables, event_tables c h = Ok tables.
Proof.
  induction c as [|[n l] c IH]; intros Hvalid; [by eexists|].
  cbn [event_tables]. destruct (Hvalid n l) as [df ->]; [by left|].
  destruct IH as [tables ->]; [|by eexists].
  intros n' l' Hin. apply (Hvalid n' l'). by right.
Qed.

(** The conversion of a table with just the columns of [SEARCH_PARAMS] has
    no [luminosity_distance] column: its summary raises at the first read. *)
Lemma converted_loader_table_raises df m1 m2 ra dec :
  columns df = SEARCH_PARAMS →
  summarise_df (df_update (converted_columns m1 m2 ra dec) df)
  = Err (KeyError "luminosity_distance_lower").
Proof.
  intros Hcols. rewrite summarise_event_df_eq, derive_no_distance; [done|].
  destruct (summarise_columns _ _ !! "luminosity_distance_lower") eqn:E; [exfalso|done].
  destruct (summarise_columns_keys summarise_samples _ _ (mk_is_Some _ _ E))
    as (q & Hq & Hkeys).
  apply df_update_columns in Hq. rewrite Hcols in Hq.
  unfold converted_columns, SEARCH_PARAMS in Hq. cbn [fmap list_fmap fst] in Hq.
  unfold keys_of in Hkeys.
  destruct Hq as [Hq|Hq];
    repeat (apply elem_of_cons in Hq as [-> | Hq]);
    try (by apply elem_of_nil in Hq);
    repeat (apply elem_of_cons in Hkeys as [Hkeys | Hkeys]; [discriminate Hkeys|]);
    by apply elem_of_nil in Hkeys.
Qed.

(** The run on the tables that the loader builds, which have just the
    columns of [SEARCH_PARAMS]: unless there is no event at all, the
    summary of the first event raises [KeyError] for
    [luminosity_distance_lower], because the conversion adds no
    [luminosity_distance] column, and no catalogue is made. *)
Theorem generate_lvc_catalog_raises c h :
  (c = [] →
   generate_lvc_catalog summarise_samples luminosity_distance_to_redshift
                        GWOSC_KEYS c h = Ok ∅)
  ∧ (c ≠ [] →
     NoDup c.*1 →
     (∀ n l, (n, l) ∈ c → ∃ df, h !! l = Some df ∧ columns df = SEARCH_PARAMS) →
     generate_lvc_catalog summarise_samples luminosity_distance_to_redshift
                          GWOSC_KEYS c h
     = Err (KeyError "luminosity_distance_lower")).
Proof.
  split; [by intros ->|]. intros Hne Hnodup Hloaded.
  unfold generate_lvc_catalog, make_events_gwosc_compatible.
  destruct (compatible_loop_ok c.*1 c h Hnodup)
    as (c' & h' & -> & Hkeys & Hframe & _ & Hconv).
  { intros k [[k' l] [-> Hin]]%list_elem_of_fmap.
    destruct (Hloaded k' l Hin) as (df & Hl & Hcols).
    exists l, df. split_and!; [by apply elem_items_get | done |].
    intros col Hcol. apply df_get_columns. rewrite Hcols.
    unfold CONVERT_READS in Hcol. unfold SEARCH_PARAMS.
    repeat (apply elem_of_cons in Hcol as [-> | Hcol]);
      try (by apply elem_of_nil in Hcol); in_list. }
  assert (∀ n l', (n, l') ∈ c' →
            ∃ df m1 m2 ra dec,
              columns df = SEARCH_PARAMS
              ∧ h' !! l' = Some (df_update (converted_columns m1 m2 ra dec) df))
    as Hentries.
  { intros n l' Hin.
    assert (n ∈ c.*1) as [[n0 l] [Hn Hin0]]%list_elem_of_fmap.
    { rewrite <- Hkeys. apply list_elem_of_fmap. by exists (n, l'). }
    simpl in Hn. subst n0.
    destruct (Hloaded n l Hin0) as (df & Hl & Hcols).
    destruct (Hconv n l df) as (l'' & converted & Hget & _ & Hl'' & Hc);
      [apply list_elem_of_fmap; by exists (n, l) | by apply elem_items_get | done |].
    rewrite (elem_items_get c' n l') in Hget; [|by rewrite Hkeys|done].
    injection Hget as <-.
    destruct Hc as (m1 & m2 & ra & dec & _ & _ & _ & _ & ->).
    by exists df, m1, m2, ra, dec. }
  destruct c' as [|[n1 l1] c'].
  { destruct c; [done|discriminate Hkeys]. }
  destruct (Hentries n1 l1) as (df & m1 & m2 & ra & dec & Hcols & Hl1); [by left|].
  cbn [event_tables]. rewrite Hl1.
  destruct (event_tables_total c' h') as [tables ->].
  { intros n l' Hin. destruct (Hentries n l') as (? & ? & ? & ? & ? & _ & ->);
      [by right|by eexists]. }
  change (summarise_all_events summarise_samples luminosity_distance_to_redshift
            GWOSC_KEYS ([] ++ (n1, df_update (converted_columns m1 m2 ra dec) df) :: tables)
          = Err (KeyError "luminosity_distance_lower")).
  apply summarise_loop_failure; [by intros n' df' ?%elem_of_nil|].
  by apply converted_loader_table_raises.
Qed.
End CatalogFacts.

(** ** The further properties on the concrete tables *)

Lemma raw_table_read_columns c : c ∈ READ_ORDER → has_column c raw_table.
Proof.
  intros Hc. unfold READ_ORDER in Hc.
  repeat (apply elem_of_cons in Hc as [-> | Hc]);
    try (by apply elem_of_nil in Hc); by eexists.
Qed.

Lemma raw_table_convert_columns c : c ∈ CONVERT_READS → has_column c raw_table.
Proof.
  intros Hc. unfold CONVERT_READS in Hc.
  repeat (apply elem_of_cons in Hc as [-> | Hc]);
    try (by apply elem_of_nil in Hc); by eexists.
Qed.

Lemma standardise_samples_returns_iff_witness :
  (∃ l' h', standardise_samples (fmap hubble_redshift) mret mret 0 [raw_table]
            = (Ok l', h'))
  ↔ ∀ c, c ∈ READ_ORDER → has_column c raw_table.
Proof.
  apply (standardise_samples_returns_iff (fmap hubble_redshift) mret mret
           0 [raw_table] raw_table).
  - apply mret_keeps_columns.
  - apply mret_keeps_columns.
  - reflexivity.
Defined.

Lemma standardise_samples_derived_columns_witness :
  ∃ l' h' out dl m1 m2,
    standardise_samples (fmap hubble_redshift) mret mret 0 [raw_table] = (Ok l', h')
    ∧ h' !! l' = Some out
    ∧ df_get "luminosity_distance_Mpc" raw_table = Some dl
    ∧ df_get "m1_detector_frame_Msun" raw_table = Some m1
    ∧ df_get "m2_detector_frame_Msun" raw_table = Some m2
    ∧ df_get "luminosity_distance" out = Some dl
    ∧ df_get "redshift" out = Some (hubble_redshift <$> dl)
    ∧ df_get "mass_1_source" out
      = Some (zip_with fdiv m1 (fadd (of_int 1) <$> (hubble_redshift <$> dl)))
    ∧ df_get "mass_2_source" out
      = Some (zip_with fdiv m2 (fadd (of_int 1) <$> (hubble_redshift <$> dl)))
    ∧ df_get "ra" out = df_get "right_ascension" raw_table
    ∧ df_get "dec" out = df_get "declination" raw_table.
Proof.
  apply (standardise_samples_derived_columns (fmap hubble_redshift) mret mret
           0 [raw_table] raw_table).
  - apply mret_keeps_columns.
  - apply mret_keeps_columns.
  - reflexivity.
  - apply raw_table_read_columns.
Defined.


Lemma standardise_samples_failure_keeps_assignments_witness :
  (standardise_samples (fmap hubble_redshift) mret mret 0 [raw_table_no_spin2]).1
  = Err (KeyError "spin2")
  ∧ ∃ dl df',
      (standardise_samples (fmap hubble_redshift) mret mret 0 [raw_table_no_spin2]).2
      = <[0 := df']> [raw_table_no_spin2]
      ∧ df_get "luminosity_distance_Mpc" raw_table_no_spin2 = Some dl
      ∧ df_get "luminosity_distance" df' = Some dl
      ∧ df_get "redshift" df' = Some (hubble_redshift <$> dl)
      ∧ df_get "spin2" df' = None.
Proof.
  destruct (standardise_samples_failure_keeps_assignments (fmap hubble_redshift)
              mret mret 0 [raw_table_no_spin2] raw_table_no_spin2 "spin2")
    as (Hraises & _ & Hkept).
  - reflexivity.
  - vm_compute. reflexivity.
  - split; [exact Hraises|]. apply Hkept. discriminate.
Defined.

Lemma standardise_columns_idempotent_witness :
  standardise_columns (fmap hubble_redshift) 0 standardised_store
  = (Ok tt, standardised_store).
Proof.
  apply (standardise_columns_idempotent (fmap hubble_redshift) 0 [raw_table]).
  vm_compute. reflexivity.
Defined.

Lemma convert_df_to_gwosc_df_columns_witness :
  ∃ converted m1 m2,
    convert_df_to_gwosc_df 0 [raw_table] = (Ok 1, [raw_table] ++ [converted])
    ∧ df_get "m1_detector_frame_Msun" raw_table = Some m1
    ∧ df_get "m2_detector_frame_Msun" raw_table = Some m2
    ∧ df_get "mass_1" converted = Some m1
    ∧ df_get "mass_2" converted = Some m2
    ∧ df_get "mass_ratio" converted = Some (zip_with fdiv m2 m1)
    ∧ df_get "ra" converted = df_get "right_ascension" raw_table
    ∧ df_get "dec" converted = df_get "declination" raw_table
    ∧ ∀ c, c ∉ ["mass_1"; "mass_2"; "mass_ratio"; "ra"; "dec"] →
           df_get c converted = df_get c raw_table.
Proof.
  apply (convert_df_to_gwosc_df_columns 0 [raw_table] raw_table).
  - reflexivity.
  - apply raw_table_convert_columns.
Defined.

Lemma convert_df_to_gwosc_df_missing_witness :
  (convert_df_to_gwosc_df 0 [masses_table]).1
  = Err (KeyError "m1_detector_frame_Msun")
  ∧ ∀ i, i < length [masses_table] →
         (convert_df_to_gwosc_df 0 [masses_table]).2 !! i = [masses_table] !! i.
Proof.
  apply (convert_df_to_gwosc_df_missing 0 [masses_table] masses_table).
  - reflexivity.
  - vm_compute. reflexivity.
Defined.

Lemma standardise_columns_in_place_witness :
  ∃ df1,
    standardise_columns (fmap hubble_redshift) 0 [raw_table]
    = (Ok tt, <[0 := df1]> [raw_table])
    ∧ <[0 := df1]> [raw_table] !! 0 = Some df1
    ∧ length (<[0 := df1]> [raw_table]) = length [raw_table]
    ∧ (∀ i, i ≠ 0 → <[0 := df1]> [raw_table] !! i = [raw_table] !! i)
    ∧ (∀ c, c ∈ ASSIGNED → c ∉ DEFAULTED → has_column c df1)
    ∧ (∀ c, c ∉ ASSIGNED → df_get c df1 = df_get c raw_table)
    ∧ ((∃ c, c ∈ ASSIGNED ∧ (c ∉ DEFAULTED) ∧ (¬ has_column c raw_table))
       → df1 ≠ raw_table)
    ∧ standardise_samples (fmap hubble_redshift) mret mret 0 [raw_table]
      = (out ← standardise_rest mret 0; mret out) (<[0 := df1]> [raw_table]).
Proof.
  apply (standardise_columns_in_place (fmap hubble_redshift) mret mret
           0 [raw_table] raw_table).
  - reflexivity.
  - apply raw_table_read_columns.
Defined.

Lemma published_column_summary_witness :
  masses_record !! "luminosity_distance"
  = Some (dict_get (summarise_columns lower_upper_median masses_table)
                   "luminosity_distance").
Proof.
  apply (proj1 (published_column_summary lower_upper_median hubble_redshift demo_keys
                  masses_table masses_record "luminosity_distance"
                  masses_table_record
                  ltac:(unfold demo_keys; in_list)
                  ltac:(discriminate)
                  ltac:(unfold DERIVED_KEYS; not_in_list))).
Defined.

Lemma summarise_all_events_first_failure_witness :
  summarise_all_events lower_upper_median hubble_redshift demo_keys
    ([("GW150914", masses_table)] ++ ("GW151012", raw_table) :: [("GW170817", masses_table)])
  = Err (KeyError "luminosity_distance_lower").
Proof.
  apply (summarise_all_events_first_failure lower_upper_median hubble_redshift demo_keys
           [("GW150914", masses_table)] "GW151012" raw_table
           [("GW170817", masses_table)]).
  - intros n df Hin. apply elem_of_cons in Hin as [[= -> ->] | Hin].
    + exists masses_record. apply masses_table_record.
    + by apply elem_of_nil in Hin.
  - vm_compute. reflexivity.
Defined.

Lemma event_name_of_file_parses_witness :
  event_name_of_file ("../data/lvc_search/gwtc1" +:+ "/" +:+ "GW150914" +:+ "_GWTC-1.hdf5")
  = "GW150914"
  ∧ event_name_of_file ("GW150914" +:+ "_GWTC-1.hdf5") = "GW150914".
Proof.
  apply (event_name_of_file_parses "../data/lvc_search/gwtc1" "GW150914"
           "_GWTC-1.hdf5" "GWTC-1.hdf5").
  - reflexivity.
  - reflexivity.
  - reflexivity.
  - left. reflexivity.
  - reflexivity.
Defined.

Lemma two_events_loaded n l :
  (n, l) ∈ two_events →
  ∃ df, [raw_table; raw_table] !! l = Some df ∧ columns df = SEARCH_PARAMS.
Proof.
  intros Hin. unfold two_events in Hin.
  repeat (apply elem_of_cons in Hin as [[= -> ->] | Hin]);
    try (by apply elem_of_nil in Hin); by exists raw_table.
Qed.

Lemma two_events_names : NoDup two_events.*1.
Proof.
  unfold two_events. simpl. repeat constructor; not_in_list.
Qed.

Lemma make_events_gwosc_compatible_converts_witness :
  ∃ c' h',
    make_events_gwosc_compatible two_events [raw_table; raw_table] = (Ok tt, c', h')
    ∧ c'.*1 = two_events.*1
    ∧ (∀ i, i < length [raw_table; raw_table] → h' !! i = [raw_table; raw_table] !! i)
    ∧ ∀ n l, (n, l) ∈ two_events →
        ∃ l' converted,
          (n, l') ∈ c' ∧ length [raw_table; raw_table] ≤ l'
          ∧ h' !! l' = Some converted
          ∧ convert_df_to_gwosc_df l [raw_table; raw_table]
            = (Ok (length [raw_table; raw_table]), [raw_table; raw_table] ++ [converted]).
Proof.
  apply (make_events_gwosc_compatible_converts two_events [raw_table; raw_table]).
  - apply two_events_names.
  - intros n l Hin. destruct (two_events_loaded n l Hin) as (df & Hl & Hcols).
    exists df. split; [done|]. intros col Hcol. apply df_get_columns. rewrite Hcols.
    unfold CONVERT_READS in Hcol. unfold SEARCH_PARAMS.
    repeat (apply elem_of_cons in Hcol as [-> | Hcol]);
      try (by apply elem_of_nil in Hcol); in_list.
Defined.

Lemma generate_lvc_catalog_raises_witness :
  generate_lvc_catalog lower_upper_median hubble_redshift demo_keys
                       two_events [raw_table; raw_table]
  = Err (KeyError "luminosity_distance_lower").
Proof.
  apply (proj2 (generate_lvc_catalog_raises lower_upper_median hubble_redshift demo_keys
                  two_events [raw_table; raw_table])).
  - discriminate.
  - apply two_events_names.
  - apply two_events_loaded.
Defined.
